(** * tmux_wrapper.py: the completion-detection poller and its helpers

    A shallow embedding of [src/tmux_wrapper.py]: the Python [str]
    operations the program uses, the regular expression
    [ANSI_ESCAPE_PATTERN] with [re]'s backtracking search, the four
    functions [capture_tmux_output], [_trim_output_to_command],
    [strip_ansi_escape_sequences] and [wait_for_output_completion],
    [session_exists] and the commands [new_tmux_session] and
    [send_keys]. *)

From Stdlib Require Import String Ascii.
From Stdlib Require Import List NArith ZArith QArith Bool Arith Lia.
Import ListNotations.

Local Open Scope nat_scope.
Local Open Scope bool_scope.
Local Open Scope list_scope.

(* ================================================================== *)
(** ** Python [str]: a sequence of Unicode code points *)

Definition char := N.
Definition str := list char.

(** A literal of the source, character by character. *)
Definition py (s : string) : str := map N_of_ascii (list_ascii_of_string s).

Definition NL : char := 10%N.      (* '\n' *)
Definition ESC : char := 27%N.     (* '\x1B' *)

(** [not s] on a string. *)
Definition is_empty (s : str) : bool :=
  match s with [] => true | _ :: _ => false end.

(** [a == b]. *)
Fixpoint str_eqb (a b : str) : bool :=
  match a, b with
  | [], [] => true
  | x :: a', y :: b' => N.eqb x y && str_eqb a' b'
  | _, _ => false
  end.

(** [s.startswith(prefix)]. *)
Fixpoint startswith (s prefix : str) {struct prefix} : bool :=
  match prefix, s with
  | [], _ => true
  | p :: prefix', c :: s' => N.eqb c p && startswith s' prefix'
  | _ :: _, [] => false
  end.

(** [s.endswith(suffix)]: the suffix read backwards opens [s] read
    backwards. *)
Definition endswith (s suffix : str) : bool :=
  startswith (rev s) (rev suffix).

(** [sub in s]: [sub] starts at some position of [s]. *)
Fixpoint contains (sub s : str) : bool :=
  startswith s sub ||
  match s with
  | [] => false
  | _ :: s' => contains sub s'
  end.

(** [s.split(sep)] for a one-character separator: never the empty list. *)
Fixpoint split (sep : char) (s : str) : list str :=
  match s with
  | [] => [[]]
  | c :: s' =>
      if N.eqb c sep then [] :: split sep s'
      else match split sep s' with
           | l :: ls => (c :: l) :: ls
           | [] => [[c]]
           end
  end.

(** [sep.join(parts)]. *)
Fixpoint join (sep : str) (parts : list str) : str :=
  match parts with
  | [] => []
  | [p] => p
  | p :: ps => p ++ sep ++ join sep ps
  end.

(** [c.isspace()]: the code points CPython treats as whitespace. *)
Definition isspace (c : char) : bool :=
  ((9 <=? c) && (c <=? 13) || (28 <=? c) && (c <=? 32)
   || (c =? 133) || (c =? 160) || (c =? 5760)
   || (8192 <=? c) && (c <=? 8202)
   || (c =? 8232) || (c =? 8233) || (c =? 8239) || (c =? 8287)
   || (c =? 12288))%N.

Fixpoint lstrip (s : str) : str :=
  match s with
  | [] => []
  | c :: s' => if isspace c then lstrip s' else s
  end.

Definition rstrip (s : str) : str := rev (lstrip (rev s)).

(** [s.strip()]. *)
Definition strip (s : str) : str := lstrip (rstrip s).

(* ================================================================== *)
(** ** The fragment of [re] that [ANSI_ESCAPE_PATTERN] uses *)

(** A character set: a literal, a range [[lo-hi]], or two sets in one
    pair of brackets. *)
Inductive cset : Type :=
| Lit (c : char)
| Range (lo hi : char)
| Union (a b : cset).

Arguments Lit c%_N.
Arguments Range (lo hi)%_N.

Fixpoint cset_mem (c : char) (cs : cset) : bool :=
  match cs with
  | Lit x => N.eqb c x
  | Range lo hi => N.leb lo c && N.leb c hi
  | Union a b => cset_mem c a || cset_mem c b
  end.

Inductive regex : Type :=
| One (cs : cset)                 (* one character of the set *)
| Star (cs : cset)                (* greedy [cs*] *)
| Cat (r1 r2 : regex).            (* concatenation *)

(** Backtracking match of [r] at the head of [s]; [k] is the rest of the
    pattern.  A greedy star first tries to take one more character and
    falls back to the continuation when that fails.  The result is what
    is left of [s] after the first successful match. *)
Fixpoint re_match (r : regex) (s : str) (k : str -> option str)
  : option str :=
  match r with
  | One cs =>
      match s with
      | c :: s' => if cset_mem c cs then k s' else None
      | [] => None
      end
  | Star cs =>
      (fix star (s : str) : option str :=
         match s with
         | c :: s' =>
             if cset_mem c cs then
               match star s' with
               | Some rest => Some rest
               | None => k s
               end
             else k s
         | [] => k s
         end) s
  | Cat r1 r2 => re_match r1 s (fun s' => re_match r2 s' k)
  end.

(** Number of characters of the match of [r] that starts [s], if any. *)
Definition match_length (r : regex) (s : str) : option nat :=
  match re_match r s Some with
  | Some rest => Some (length s - length rest)
  | None => None
  end.

(** [r.sub("", s)] from left to right; [skip] counts the characters of
    the current match that are still to be dropped.  At each position
    outside a match the pattern is tried; a match of [n+1] characters
    drops this character and the next [n], anything else keeps the
    character. *)
Fixpoint sub_skip (r : regex) (skip : nat) (s : str) : str :=
  match s with
  | [] => []
  | c :: s' =>
      match skip with
      | S n => sub_skip r n s'
      | O =>
          match match_length r s with
          | Some (S n) => sub_skip r n s'
          | _ => c :: sub_skip r 0 s'
          end
      end
  end.

Definition re_sub_empty (r : regex) (s : str) : str := sub_skip r 0 s.

(** [re.compile(r"\x1B[@-_][0-?]*[ -/]*[@-~]")] *)
Definition ANSI_ESCAPE_PATTERN : regex :=
  Cat (One (Lit ESC))
      (Cat (One (Range 64 95))            (* [@-_] *)
           (Cat (Star (Range 48 63))      (* [0-?]* *)
                (Cat (Star (Range 32 47)) (* [ -/]* *)
                     (One (Range 64 126))))). (* [@-~] *)

Definition strip_ansi_escape_sequences (text : str) : str :=
  re_sub_empty ANSI_ESCAPE_PATTERN text.

(** The texts the pattern matches: the introducer, one character of
    [[@-_]], any characters of [[0-?]], any characters of [[ -/]] and
    a final character of [[@-~]]. *)
Definition escape_sequence (s : str) : Prop :=
  exists (b fin : char) (params inter : str),
    s = ESC :: b :: params ++ inter ++ [fin]
    /\ cset_mem b (Range 64 95) = true
    /\ (forall x, In x params -> cset_mem x (Range 48 63) = true)
    /\ (forall x, In x inter -> cset_mem x (Range 32 47) = true)
    /\ cset_mem fin (Range 64 126) = true.

(** Does every escape introducer of [s] begin a text that the pattern
    matches? *)
Fixpoint escapes_complete (s : str) : bool :=
  match s with
  | [] => true
  | c :: s' =>
      (if N.eqb c ESC
       then match re_match ANSI_ESCAPE_PATTERN (c :: s') Some with
            | Some _ => true
            | None => false
            end
       else true)
      && escapes_complete s'
  end.

(* ================================================================== *)
(** ** [_trim_output_to_command] *)

(** The loop [for idx in range(n - 1, -1, -1)]: the first index, going
    down from [n - 1], whose line contains [command]. *)
Fixpoint scan_back (command : str) (lines : list str) (n : nat)
  : option nat :=
  match n with
  | O => None
  | S idx =>
      if contains command (nth idx lines []) then Some idx
      else scan_back command lines idx
  end.

Definition _trim_output_to_command (output : str) (command : option str)
  : str :=
  match command with
  | None => output
  | Some c =>
      if is_empty c || is_empty output then output
      else
        let lines := split NL output in
        match scan_back c lines (length lines) with
        | Some idx => join [NL] (skipn idx lines)
        | None => output
        end
  end.

(* ================================================================== *)
(** ** [capture_tmux_output] *)

(** What [subprocess.run] can raise in this program. *)
Inductive exception : Type :=
| TimeoutExpired          (* the child outlived [timeout=5] *)
| CalledProcessError      (* non-zero exit status under [check=True] *)
| OSError                 (* the tmux binary could not be started,
                             e.g. FileNotFoundError *)
| UnicodeDecodeError.     (* undecodable output under [text=True] *)

(** The outcome of one [subprocess.run([...], capture_output=True,
    text=True, ...)]: a finished process or an exception. *)
Inductive run_outcome : Type :=
| CompletedProcess (returncode : Z) (stdout : str)
| Raised (e : exception).

(** The outcome of a Python call: a value, or an exception that
    reaches the caller. *)
Inductive result (A : Type) : Type :=
| Value (a : A)
| Propagates (e : exception).

Arguments Value {A} a.
Arguments Propagates {A} e.

Section Capture.

(** The external invocation
    [["tmux", "capture-pane", "-t", session_name, "-p", "-S", f"-{lines}"]]. *)
Variable capture_pane : str -> Z -> run_outcome.

(** [try: result = subprocess.run(...); return result.stdout] with the
    two [except] clauses of the source; any other exception is not
    caught. *)
Definition capture_tmux_output (session_name : str) (lines : Z)
  : result str :=
  match capture_pane session_name lines with
  | CompletedProcess _ stdout => Value stdout
  | Raised TimeoutExpired => Value []
  | Raised CalledProcessError => Value []
  | Raised e => Propagates e
  end.

End Capture.

(* ================================================================== *)
(** ** [wait_for_output_completion] *)

(** What the probes of one iteration of [while True] returned:
    [time.time()], [session_exists(session_name)] and
    [capture_tmux_output(session_name)] (every path of the loop body
    captures exactly once). *)
Record tick : Type := {
  tick_time : Q;
  tick_session_exists : bool;
  tick_capture : str
}.

(** The local variables that live across iterations. *)
Record poll_state : Type := {
  last_output : str;
  output_changed : bool;
  command_seen : bool;
  poll_count : nat
}.

(** One run of the loop body: [return] of the triple
    [(final_output, timed_out, session_exited)], or [time.sleep] and
    the next iteration. *)
Inductive iteration : Type :=
| Return (r : str * bool * bool)
| Sleep (st : poll_state).

Definition prompt_patterns : list str :=
  [ py "pry(main)>";   (* Rails console *)
    py "]$";           (* Bash prompt like [user@host dir]$ *)
    py "]#";           (* Root bash prompt like [root@host dir]# *)
    py "#";            (* Shell prompt with # *)
    py "$" ].          (* Shell prompt with $ *)

(** [command_sent and command_sent in output] *)
Definition command_in (command_sent : option str) (output : str) : bool :=
  match command_sent with
  | Some c => negb (is_empty c) && contains c output
  | None => false
  end.

(** [trimmed_output.strip().split('\n')[-1].strip()
     if trimmed_output.strip() else ""] *)
Definition last_line (trimmed_output : str) : str :=
  if negb (is_empty (strip trimmed_output))
  then strip (last (split NL (strip trimmed_output)) [])
  else [].

Definition clean_last_line (trimmed_output : str) : str :=
  strip_ansi_escape_sequences (last_line trimmed_output).

(** The [for pattern in prompt_patterns] loop: does some pattern end
    the line? *)
Definition ends_with_prompt (line : str) : bool :=
  existsb (fun pattern => endswith line pattern) prompt_patterns.

(** The same loop, with the pattern at which it returns. *)
Definition matching_pattern (line : str) : option str :=
  find (fun pattern => endswith line pattern) prompt_patterns.

Section Poll.

Variable command_sent : option str.
Variable max_wait_sec : Z.
Variable pre_command_output : option str.
(** [start_time = time.time()] and the capture that seeds
    [initial_output] when no [pre_command_output] is given. *)
Variable start_time : Q.
Variable first_capture : str.

Definition initial_state : poll_state :=
  let initial_output :=
    match pre_command_output with
    | Some pre => pre
    | None => first_capture
    end in
  {| last_output := initial_output;
     output_changed :=
       match pre_command_output with None => true | Some _ => false end;
     command_seen := command_in command_sent initial_output;
     poll_count := 0 |}.

(** [elapsed > max_wait_sec] *)
Definition timed_out_at (t : tick) : bool :=
  negb (Qle_bool (tick_time t - start_time) (inject_Z max_wait_sec)).

(** The assignments to [command_seen], [output_changed] and
    [last_output] of one iteration.  [poll_count], which the source
    increments at the top of the loop body, is never read; it is
    counted here, for the iterations that go on to the next one. *)
Definition observe (st : poll_state) (current_output : str)
  : poll_state :=
  let seen :=
    if command_in command_sent current_output && negb (command_seen st)
    then true else command_seen st in
  let differs := negb (str_eqb current_output (last_output st)) in
  {| last_output := if differs then current_output else last_output st;
     output_changed := if differs then true else output_changed st;
     command_seen := seen;
     poll_count := S (poll_count st) |}.

(** [(output_changed or command_seen) and trimmed_output] *)
Definition check_prompts (st : poll_state) (trimmed_output : str)
  : bool :=
  (output_changed st || command_seen st)
  && negb (is_empty trimmed_output).

Definition loop_body (st : poll_state) (t : tick) : iteration :=
  if timed_out_at t then
    Return (_trim_output_to_command (tick_capture t) command_sent,
            true, false)
  else if negb (tick_session_exists t) then
    Return (_trim_output_to_command (tick_capture t) command_sent,
            false, true)
  else
    let current_output := tick_capture t in
    let st' := observe st current_output in
    let trimmed_output :=
      _trim_output_to_command current_output command_sent in
    if check_prompts st' trimmed_output
       && ends_with_prompt (clean_last_line trimmed_output)
    then Return (_trim_output_to_command current_output command_sent,
                 false, false)
    else Sleep st'.

(** The loop over the iterations observed so far: the triple returned,
    or the state with which the loop goes on polling. *)
Fixpoint poll_loop (st : poll_state) (ticks : list tick) : iteration :=
  match ticks with
  | [] => Sleep st
  | t :: ticks' =>
      match loop_body st t with
      | Return r => Return r
      | Sleep st' => poll_loop st' ticks'
      end
  end.

Definition wait_for_output_completion (ticks : list tick) : iteration :=
  poll_loop initial_state ticks.

End Poll.

(* ================================================================== *)
(** ** [session_exists] and the two commands *)

(** [subprocess.run(["tmux", "has-session", "-t", session_name], ...)]
    outside any [try]: [result.returncode == 0], or the exception of
    the invocation. *)
Definition session_exists (has_session : run_outcome) : result bool :=
  match has_session with
  | CompletedProcess returncode _ => Value (Z.eqb returncode 0)
  | Raised e => Propagates e
  end.

(** The outcome of a [subprocess.run] whose [returncode] and [stderr]
    the commands read. *)
Inductive control_outcome : Type :=
| Finished (returncode : Z) (stderr : str)
| Threw (e : exception).

(** How the body of a command ends, once click has parsed the
    arguments and called it: [sys.exit(code)] (a plain return is exit
    status 0), an exception that nothing catches, or, for the ticks
    observed so far, a poll that has not returned yet.  What click
    does without calling the body (a usage error, [--help]) is not
    part of it. *)
Inductive cli_status : Type :=
| Exit (code : Z)
| Traceback (e : exception)
| StillPolling.

(** What the body of a command did: the tmux invocations it made
    before polling, in order, what its [click.echo] calls wrote to
    standard output and to standard error, and how it ended. *)
Record cli_run : Type := {
  cli_issued : list (list str);
  cli_stdout : str;
  cli_stderr : str;
  cli_status_of : cli_status
}.

(** click's [_ansi_re = re.compile(r"\033\[[;?0-9]*[a-zA-Z]")] and
    [strip_ansi]. *)
Definition CLICK_ANSI_PATTERN : regex :=
  Cat (One (Lit ESC))
      (Cat (One (Lit 91))                                   (* \[ *)
           (Cat (Star (Union (Lit 59)                       (* [;?0-9]* *)
                             (Union (Lit 63) (Range 48 57))))
                (One (Union (Range 97 122) (Range 65 90))))). (* [a-zA-Z] *)

Definition click_strip_ansi (value : str) : str :=
  re_sub_empty CLICK_ANSI_PATTERN value.

(** What [click.echo] writes for the text [out] (the message, with its
    newline unless [nl=False]): [out] itself when the stream is a
    terminal, [strip_ansi(out)] when it is not. *)
Definition written (isatty : bool) (out : str) : str :=
  if isatty then out else click_strip_ansi out.

(** The text of [click.echo(message, err=True)]: the message and a
    newline. *)
Definition echo_err (message : str) : str := message ++ [NL].

Definition DQUOTE : char := 34%N.

Definition has_session_argv (session_name : str) : list str :=
  [py "tmux"; py "has-session"; py "-t"; session_name].

Definition capture_pane_argv (session_name : str) : list str :=
  [py "tmux"; py "capture-pane"; py "-t"; session_name; py "-p"; py "-S";
   py "-100"].

Definition fallback_cmd : str :=
  py "echo " ++ [DQUOTE]
     ++ py "ERROR: Command failed. Opening shell for debugging."
     ++ [DQUOTE] ++ py " && exec bash".

Definition wrapped_command (command : str) : str :=
  command ++ py " || (" ++ fallback_cmd ++ py ")".

Definition new_session_argv (session_name : str)
           (start_directory : option str) (command : str) : list str :=
  [py "tmux"; py "new-session"; py "-d"]
    ++ [py "-s"; session_name]
    ++ match start_directory with
       | Some d => if is_empty d then [] else [py "-c"; d]
       | None => []
       end
    ++ [wrapped_command command].

Definition send_keys_argv (target_session : str) (no_enter : bool)
           (keys : str) : list str :=
  [py "tmux"; py "send-keys"; py "-t"; target_session; keys]
    ++ (if no_enter then [] else [py "C-m"]).

(** The tail both commands share: print the output of the poll with
    [click.echo(output, nl=False)] and turn its two flags into
    messages and an exit status; [exited_message] and [exited_code]
    are what the command does when the session has exited. *)
Definition report (issued : list (list str))
           (stdout_isatty stderr_isatty : bool)
           (exited_message : str) (exited_code : Z) (poll : iteration)
  : cli_run :=
  match poll with
  | Sleep _ =>
      {| cli_issued := issued; cli_stdout := []; cli_stderr := [];
         cli_status_of := StillPolling |}
  | Return (output, timed_out, session_exited) =>
      if session_exited then
        {| cli_issued := issued;
           cli_stdout := written stdout_isatty output;
           cli_stderr := written stderr_isatty (echo_err exited_message);
           cli_status_of := Exit exited_code |}
      else if timed_out then
        {| cli_issued := issued;
           cli_stdout := written stdout_isatty output;
           cli_stderr :=
             written stderr_isatty
               (echo_err
                  ([NL] ++ py "[Timeout after 20s - session still running]"));
           cli_status_of := Exit 2 |}
      else
        {| cli_issued := issued;
           cli_stdout := written stdout_isatty output;
           cli_stderr := [];
           cli_status_of := Exit 0 |}
  end.

(** A command that stops before polling, with an error message and
    [sys.exit(1)], or with an uncaught exception. *)
Definition exit_with_error (issued : list (list str)) (stderr_isatty : bool)
           (message : str) : cli_run :=
  {| cli_issued := issued; cli_stdout := [];
     cli_stderr := written stderr_isatty (echo_err message);
     cli_status_of := Exit 1 |}.

Definition uncaught (issued : list (list str)) (e : exception) : cli_run :=
  {| cli_issued := issued; cli_stdout := []; cli_stderr := [];
     cli_status_of := Traceback e |}.

(** What tmux and the clock answer during one [new-tmux-session]. *)
Record new_session_world : Type := {
  ns_has_session : run_outcome;        (* has-session, before creating *)
  ns_new_session : control_outcome;    (* new-session -d ... *)
  ns_has_session_after : run_outcome;  (* has-session, 100 ms later *)
  ns_start_time : Q;                   (* [time.time()] at poll start *)
  ns_first_capture : str;              (* the poll's initial capture *)
  ns_ticks : list tick;                (* the iterations of the poll *)
  ns_stdout_isatty : bool;             (* is standard output a terminal? *)
  ns_stderr_isatty : bool              (* is standard error a terminal? *)
}.

Definition new_tmux_session (session_name : str)
           (start_directory : option str) (command : str)
           (w : new_session_world) : cli_run :=
  let probe := has_session_argv session_name in
  match session_exists (ns_has_session w) with
  | Propagates e => uncaught [probe] e
  | Value true =>
      exit_with_error [probe] (ns_stderr_isatty w)
           (py "Error: Session '" ++ session_name ++ py "' already exists")
  | Value false =>
      let tmux_cmd := new_session_argv session_name start_directory command in
      match ns_new_session w with
      | Threw TimeoutExpired =>
          exit_with_error [probe; tmux_cmd] (ns_stderr_isatty w)
               (py "Error: tmux new-session command timed out")
      | Threw e => uncaught [probe; tmux_cmd] e
      | Finished returncode stderr =>
          if negb (Z.eqb returncode 0) then
            exit_with_error [probe; tmux_cmd] (ns_stderr_isatty w)
                            (py "Error creating session: " ++ stderr)
          else
            match session_exists (ns_has_session_after w) with
            | Propagates e => uncaught [probe; tmux_cmd; probe] e
            | Value false =>
                exit_with_error [probe; tmux_cmd; probe] (ns_stderr_isatty w)
                     (py "Error: Session '" ++ session_name
                         ++ py "' exited immediately")
            | Value true =>
                report [probe; tmux_cmd; probe]
                       (ns_stdout_isatty w) (ns_stderr_isatty w)
                       ([NL] ++ py "[Session exited - command completed]") 0
                       (wait_for_output_completion
                          (Some command) 20 None (ns_start_time w)
                          (ns_first_capture w) (ns_ticks w))
            end
      end
  end.

(** What tmux and the clock answer during one [send-keys]. *)
Record send_keys_world : Type := {
  sk_has_session : run_outcome;              (* has-session *)
  sk_capture_pane : str -> Z -> run_outcome; (* capture-pane, before sending *)
  sk_send_keys : control_outcome;            (* send-keys ... *)
  sk_start_time : Q;                         (* [time.time()] at poll start *)
  sk_ticks : list tick;                      (* the iterations of the poll *)
  sk_stdout_isatty : bool;                   (* is standard output a terminal? *)
  sk_stderr_isatty : bool                    (* is standard error a terminal? *)
}.

Definition send_keys (target_session : str) (no_enter : bool) (keys : str)
           (w : send_keys_world) : cli_run :=
  let probe := has_session_argv target_session in
  match session_exists (sk_has_session w) with
  | Propagates e => uncaught [probe] e
  | Value false =>
      exit_with_error [probe] (sk_stderr_isatty w)
           (py "Error: Session '" ++ target_session ++ py "' does not exist")
  | Value true =>
      let capture := capture_pane_argv target_session in
      match capture_tmux_output (sk_capture_pane w) target_session 100 with
      | Propagates e => uncaught [probe; capture] e
      | Value pre_command_output =>
          let tmux_cmd := send_keys_argv target_session no_enter keys in
          match sk_send_keys w with
          | Threw TimeoutExpired =>
              exit_with_error [probe; capture; tmux_cmd] (sk_stderr_isatty w)
                   (py "Error: tmux send-keys command timed out")
          | Threw e => uncaught [probe; capture; tmux_cmd] e
          | Finished returncode stderr =>
              if negb (Z.eqb returncode 0) then
                exit_with_error [probe; capture; tmux_cmd] (sk_stderr_isatty w)
                     (py "Error sending keys: " ++ stderr)
              else
                report [probe; capture; tmux_cmd]
                       (sk_stdout_isatty w) (sk_stderr_isatty w)
                       ([NL] ++ py "[Session exited]") 1
                       (wait_for_output_completion
                          (Some keys) 20 (Some pre_command_output)
                          (sk_start_time w) [] (sk_ticks w))
          end
      end
  end.

(* ================================================================== *)
(** ** Sample runs *)

(** A pane after [echo hi] has finished (scenario A of the
    specification). *)
Definition pane_done : str :=
  py "user@host:~$ echo hi" ++ [NL] ++ py "hi" ++ [NL] ++ py "user@host:~$ ".

(** The same pane while the command is still printing. *)
Definition pane_busy : str :=
  py "user@host:~$ echo hi" ++ [NL] ++ py "hi".

(** The pane before the keys were sent. *)
Definition pane_before : str := py "user@host:~$ ".

Definition sample_tick (seconds : Z) (alive : bool) (pane : str) : tick :=
  {| tick_time := inject_Z seconds;
     tick_session_exists := alive;
     tick_capture := pane |}.

(** A [send-keys] call: [command_sent = "echo hi"], the default
    [max_wait_sec = 20], [start_time = 0]. *)
Definition sample_poll (pre_command_output : option str)
           (ticks : list tick) : iteration :=
  wait_for_output_completion (Some (py "echo hi")) 20 pre_command_output
                             0%Q pane_before ticks.

(** A [new-tmux-session] whose session comes up and a [send-keys] into
    a live session; the poll sees [ticks]. *)
Definition sample_new_session (ticks : list tick) : new_session_world :=
  {| ns_has_session := CompletedProcess 1 [];
     ns_new_session := Finished 0 [];
     ns_has_session_after := CompletedProcess 0 [];
     ns_start_time := 0%Q;
     ns_first_capture := [];
     ns_ticks := ticks;
     ns_stdout_isatty := true;
     ns_stderr_isatty := true |}.

Definition sample_send_keys (ticks : list tick) : send_keys_world :=
  {| sk_has_session := CompletedProcess 0 [];
     sk_capture_pane := fun _ _ => CompletedProcess 0 pane_before;
     sk_send_keys := Finished 0 [];
     sk_start_time := 0%Q;
     sk_ticks := ticks;
     sk_stdout_isatty := true;
     sk_stderr_isatty := true |}.

(* ================================================================== *)
(** * Properties *)

(** ** The string operations meet their Python meaning *)

Lemma str_eqb_eq (a b : str) : str_eqb a b = true <-> a = b.
Proof.
  revert b; induction a as [|x a IH]; intros [|y b]; simpl;
    try (split; [discriminate | congruence]); try tauto.
  rewrite andb_true_iff, N.eqb_eq, IH.
  split; [intros [-> ->]; reflexivity | intros [= -> ->]; auto].
Qed.

Lemma str_eqb_refl (a : str) : str_eqb a a = true.
Proof. apply str_eqb_eq; reflexivity. Qed.

Lemma startswith_iff (s prefix : str) :
  startswith s prefix = true <-> exists rest, s = prefix ++ rest.
Proof.
  revert s; induction prefix as [|p prefix IH]; intros s; simpl.
  - split; [intros _; exists s; reflexivity | reflexivity].
  - destruct s as [|c s].
    + split; [discriminate | intros [rest H]; discriminate].
    + rewrite andb_true_iff, N.eqb_eq, IH. split.
      * intros [-> [rest ->]]. exists rest; reflexivity.
      * intros [rest [= -> ->]]. split; [reflexivity | exists rest; reflexivity].
Qed.

Lemma endswith_iff (s suffix : str) :
  endswith s suffix = true <-> exists front, s = front ++ suffix.
Proof.
  unfold endswith. rewrite startswith_iff. split.
  - intros [rest H]. exists (rev rest).
    rewrite <- (rev_involutive s), H, rev_app_distr, rev_involutive.
    reflexivity.
  - intros [front ->]. exists (rev front). apply rev_app_distr.
Qed.

Lemma contains_iff (sub s : str) :
  contains sub s = true <-> exists a b, s = a ++ sub ++ b.
Proof.
  induction s as [|c s IH].
  - simpl. rewrite orb_false_r, startswith_iff. split.
    + intros [rest H]. exists [], rest. exact H.
    + intros [a [b H]]. destruct a; [exists b; exact H | discriminate].
  - cbn [contains]. rewrite orb_true_iff, startswith_iff, IH. split.
    + intros [[rest H] | [a [b H]]].
      * exists [], rest. exact H.
      * exists (c :: a), b. rewrite H. reflexivity.
    + intros [[|x a] [b H]].
      * left. exists b. exact H.
      * right. injection H as _ H. exists a, b. exact H.
Qed.

Lemma contains_in_empty (sub : str) :
  contains sub [] = true -> sub = [].
Proof.
  rewrite contains_iff. intros [a [b H]].
  destruct a; [destruct sub; [reflexivity | discriminate] | discriminate].
Qed.

Lemma split_not_nil (sep : char) (s : str) : split sep s <> [].
Proof.
  induction s as [|c s IH]; simpl; [discriminate|].
  destruct (N.eqb c sep); [discriminate|].
  destruct (split sep s); [contradiction | discriminate].
Qed.

Lemma join_cons (sep p : str) (ps : list str) :
  ps <> [] -> join sep (p :: ps) = p ++ sep ++ join sep ps.
Proof. destruct ps; [contradiction | reflexivity]. Qed.

Lemma join_split (sep : char) (s : str) : join [sep] (split sep s) = s.
Proof.
  induction s as [|c s IH]; [reflexivity|].
  simpl. destruct (N.eqb c sep) eqn:E.
  - apply N.eqb_eq in E. subst c.
    rewrite join_cons by apply split_not_nil. simpl. now rewrite IH.
  - pose proof (split_not_nil sep s) as Hne.
    destruct (split sep s) as [|l ls]; [contradiction|].
    rewrite <- IH. destruct ls; reflexivity.
Qed.

(** Dropping leading parts of a join leaves a suffix that starts right
    after a separator. *)
Lemma join_skipn (sep : str) (parts : list str) (k : nat) :
  k < length parts ->
  exists front,
    join sep parts = front ++ join sep (skipn k parts)
    /\ (k = 0 /\ front = [] \/ exists front', front = front' ++ sep).
Proof.
  revert parts; induction k as [|k IH]; intros parts Hk.
  - exists []. split; [reflexivity | left; split; reflexivity].
  - destruct parts as [|p ps]; [simpl in Hk; lia|].
    simpl in Hk. assert (Hk' : k < length ps) by lia.
    destruct (IH ps Hk') as [front [Hj Hf]].
    assert (Hne : ps <> []) by (destruct ps; [simpl in Hk'; lia | discriminate]).
    rewrite join_cons by exact Hne. cbn [skipn].
    destruct Hf as [[-> ->] | [front' ->]].
    + exists (p ++ sep). split.
      * rewrite <- app_assoc. reflexivity.
      * right. exists p. reflexivity.
    + exists (p ++ sep ++ front' ++ sep). split.
      * rewrite Hj. now rewrite <- !app_assoc.
      * right. exists (p ++ sep ++ front'). now rewrite <- !app_assoc.
Qed.

Lemma join_skipn_not_nil (sep : str) (parts : list str) (k : nat) :
  nth k parts [] <> [] -> join sep (skipn k parts) <> [].
Proof.
  revert parts; induction k as [|k IH]; intros parts H.
  - destruct parts as [|p ps]; [contradiction H; reflexivity|].
    simpl in H. cbn [skipn]. destruct p; [contradiction H; reflexivity|].
    destruct ps; discriminate.
  - destruct parts as [|p ps]; [contradiction H; reflexivity|].
    cbn [skipn]. apply IH. exact H.
Qed.

(** ** [_trim_output_to_command] *)

Lemma scan_back_some (command : str) (lines : list str) (n k : nat) :
  scan_back command lines n = Some k ->
  k < n /\ contains command (nth k lines []) = true.
Proof.
  induction n as [|n IH]; simpl; [discriminate|].
  destruct (contains command (nth n lines [])) eqn:E.
  - intros [= <-]. split; [lia | exact E].
  - intros H. destruct (IH H). split; [lia | assumption].
Qed.

Lemma scan_back_last (command : str) (lines : list str) (n k : nat) :
  k < n ->
  contains command (nth k lines []) = true ->
  (forall j, k < j < n -> contains command (nth j lines []) = false) ->
  scan_back command lines n = Some k.
Proof.
  induction n as [|n IH]; intros Hk Hin Hlater; [lia|].
  simpl. destruct (Nat.eq_dec k n) as [->|Hne].
  - now rewrite Hin.
  - rewrite (Hlater n) by lia. apply IH; [lia | exact Hin |].
    intros j Hj. apply Hlater. lia.
Qed.

Lemma scan_back_none (command : str) (lines : list str) (n : nat) :
  (forall j, j < n -> contains command (nth j lines []) = false) ->
  scan_back command lines n = None.
Proof.
  induction n as [|n IH]; intros H; [reflexivity|].
  simpl. rewrite (H n) by lia. apply IH. intros j Hj. apply H. lia.
Qed.

(** C3: when [sentText] (non-empty) occurs in the lines of [output] and
    [k] is the index of the last line in which it occurs,
    [_trim_output_to_command output sentText] is the newline-join of
    the lines from index [k] on: the last occurrence wins. *)
Theorem trim_last_occurrence_wins (output sentText : str) (k : nat) :
  sentText <> [] ->
  k < length (split NL output) ->
  contains sentText (nth k (split NL output) []) = true ->
  (forall j, k < j < length (split NL output) ->
             contains sentText (nth j (split NL output) []) = false) ->
  _trim_output_to_command output (Some sentText)
  = join [NL] (skipn k (split NL output)).
Proof.
  intros Hne Hk Hin Hlater. unfold _trim_output_to_command.
  destruct sentText as [|c sentText]; [contradiction|].
  destruct output as [|o output].
  - simpl in Hk, Hin. destruct k; [|lia].
    apply contains_in_empty in Hin. discriminate.
  - cbn [is_empty orb]. cbv zeta.
    rewrite (scan_back_last _ _ _ k Hk Hin Hlater). reflexivity.
Qed.

Lemma trim_last_occurrence_wins_witness :
  _trim_output_to_command
    (py "$ ls" ++ [NL] ++ py "a" ++ [NL] ++ py "$ ls" ++ [NL] ++ py "b")
    (Some (py "ls"))
  = py "$ ls" ++ [NL] ++ py "b".
Proof.
  apply (trim_last_occurrence_wins
           (py "$ ls" ++ [NL] ++ py "a" ++ [NL] ++ py "$ ls" ++ [NL] ++ py "b")
           (py "ls") 2).
  - discriminate.
  - vm_compute. lia.
  - reflexivity.
  - intros j Hj. vm_compute in Hj.
    assert (j = 3) as -> by lia. reflexivity.
Defined.

(** C8: without a command the output is returned as it is, and so it is
    when the command is non-empty and no line of the output contains
    it. *)
Theorem trim_without_match_is_identity :
  (forall output : str, _trim_output_to_command output None = output)
  /\ (forall output sentText : str,
         sentText <> [] ->
         (forall line, In line (split NL output) ->
                       contains sentText line = false) ->
         _trim_output_to_command output (Some sentText) = output).
Proof.
  split; [reflexivity|].
  intros output sentText Hne Hno. unfold _trim_output_to_command.
  destruct (is_empty sentText || is_empty output); [reflexivity|].
  cbv zeta. rewrite scan_back_none; [reflexivity|].
  intros j Hj. apply Hno. apply nth_In. exact Hj.
Qed.

Lemma trim_without_match_is_identity_witness :
  _trim_output_to_command (py "$ ls" ++ [NL] ++ py "a") (Some (py "pwd"))
  = py "$ ls" ++ [NL] ++ py "a".
Proof.
  apply (proj2 trim_without_match_is_identity).
  - discriminate.
  - intros line Hin. vm_compute in Hin.
    destruct Hin as [<- | [<- | []]]; reflexivity.
Defined.

(** C10: the result of [_trim_output_to_command] is the newline-join of
    the lines of [output] from some index on, hence a suffix of
    [output] that begins at the start of [output] or right after a
    newline; it is empty only when [output] is. *)
Theorem trim_is_line_suffix (output : str) (command : option str) :
  exists (k : nat) (front : str),
    k < length (split NL output)
    /\ _trim_output_to_command output command
       = join [NL] (skipn k (split NL output))
    /\ output = front ++ _trim_output_to_command output command
    /\ (front = [] \/ exists front', front = front' ++ [NL])
    /\ (output <> [] -> _trim_output_to_command output command <> []).
Proof.
  assert (Hwhole : forall r, r = output ->
            exists (k : nat) (front : str),
              k < length (split NL output)
              /\ r = join [NL] (skipn k (split NL output))
              /\ output = front ++ r
              /\ (front = [] \/ exists front', front = front' ++ [NL])
              /\ (output <> [] -> r <> [])).
  { intros r ->. exists 0, []. repeat split.
    - pose proof (split_not_nil NL output).
      destruct (split NL output); [contradiction | simpl; lia].
    - cbn [skipn]. symmetry. apply join_split.
    - left; reflexivity.
    - auto. }
  unfold _trim_output_to_command.
  destruct command as [c|]; [|apply Hwhole; reflexivity].
  destruct (is_empty c || is_empty output) eqn:E; [apply Hwhole; reflexivity|].
  cbv zeta.
  destruct (scan_back c (split NL output) (length (split NL output)))
    as [k|] eqn:Hscan; [|apply Hwhole; reflexivity].
  apply scan_back_some in Hscan. destruct Hscan as [Hk Hin].
  destruct (join_skipn [NL] (split NL output) k Hk) as [front [Hj Hf]].
  rewrite join_split in Hj.
  exists k, front. repeat split; try assumption.
  - destruct Hf as [[_ ->] | Hf]; [left; reflexivity | right; exact Hf].
  - intros _. apply join_skipn_not_nil. intros Hnil. rewrite Hnil in Hin.
    apply contains_in_empty in Hin. subst c. discriminate.
Qed.

(** ** [strip_ansi_escape_sequences] *)

Lemma no_match_without_esc (c : char) (s : str) :
  c <> ESC -> match_length ANSI_ESCAPE_PATTERN (c :: s) = None.
Proof.
  intros Hc. unfold match_length, ANSI_ESCAPE_PATTERN.
  cbn [re_match cset_mem].
  apply N.eqb_neq in Hc. rewrite Hc. reflexivity.
Qed.

Lemma sanitize_without_esc (s : str) :
  ~ In ESC s -> strip_ansi_escape_sequences s = s.
Proof.
  unfold strip_ansi_escape_sequences, re_sub_empty.
  induction s as [|c s IH]; intros Hno; [reflexivity|].
  cbn [sub_skip]. rewrite no_match_without_esc.
  - f_equal. apply IH. intros Hin. apply Hno. right. exact Hin.
  - intros ->. apply Hno. left. reflexivity.
Qed.

Lemma sub_skip_length (r : regex) (s : str) (skip : nat) :
  length (sub_skip r skip s) <= length s.
Proof.
  revert skip; induction s as [|c s IH]; intros skip; [simpl; lia|].
  cbn [sub_skip length]. destruct skip as [|n].
  - destruct (match_length r (c :: s)) as [[|n]|]; cbn [length];
      try (specialize (IH 0); lia).
    specialize (IH n); lia.
  - specialize (IH n); lia.
Qed.

(** A successful match consumes a prefix of the text, so
    [match_length] is the length of the matched text. *)
Lemma re_match_consumes (r : regex) :
  forall (s : str) (k : str -> option str) (rest : str),
    re_match r s k = Some rest ->
    exists m s', s = m ++ s' /\ k s' = Some rest.
Proof.
  induction r as [cs | cs | r1 IH1 r2 IH2]; intros s k rest.
  - destruct s as [|c s]; simpl; [discriminate|].
    destruct (cset_mem c cs); [|discriminate].
    intros H. exists [c], s. split; [reflexivity | exact H].
  - induction s as [|c s IHs]; cbn [re_match].
    + intros H. exists [], []. split; [reflexivity | exact H].
    + cbn [re_match] in IHs. destruct (cset_mem c cs).
      * match goal with
        | |- match ?x with _ => _ end = _ -> _ => destruct x as [r0|] eqn:E
        end.
        -- intros [= ->]. destruct (IHs eq_refl) as (m & s' & -> & Hk).
           exists (c :: m), s'. split; [reflexivity | exact Hk].
        -- intros H. exists [], (c :: s). split; [reflexivity | exact H].
      * intros H. exists [], (c :: s). split; [reflexivity | exact H].
  - cbn [re_match]. intros H.
    destruct (IH1 _ _ _ H) as (m1 & s1 & -> & H1).
    destruct (IH2 _ _ _ H1) as (m2 & s2 & -> & H2).
    exists (m1 ++ m2), s2. split; [apply app_assoc | exact H2].
Qed.

Lemma sub_skip_drops (r : regex) (m rest : str) :
  sub_skip r (length m) (m ++ rest) = sub_skip r 0 rest.
Proof.
  induction m as [|c m IH]; [reflexivity|].
  cbn [length app sub_skip]. exact IH.
Qed.

(** The two equations of a substitution from left to right: a match
    that starts here is dropped and the search goes on behind it; where
    none starts, the character is kept. *)
Lemma re_sub_empty_match (r : regex) (m rest : str) :
  m <> [] ->
  re_match r (m ++ rest) Some = Some rest ->
  re_sub_empty r (m ++ rest) = re_sub_empty r rest.
Proof.
  intros Hm H. unfold re_sub_empty.
  destruct m as [|c m]; [contradiction|].
  cbn [app sub_skip]. unfold match_length. cbn [app] in H. rewrite H.
  cbn [length]. rewrite length_app.
  replace (S (length m + length rest) - length rest) with (S (length m)) by lia.
  apply sub_skip_drops.
Qed.

Lemma re_sub_empty_no_match (r : regex) (c : char) (s : str) :
  re_match r (c :: s) Some = None ->
  re_sub_empty r (c :: s) = c :: re_sub_empty r s.
Proof.
  intros H. unfold re_sub_empty. cbn [sub_skip].
  unfold match_length. rewrite H. reflexivity.
Qed.

(** C4 as stated fails: in [ESC ESC [ m [ m] the first introducer has
    no sequence behind it and stays, the sequence [ESC [ m] after it is
    removed, and what is left, [ESC [ m], still holds an introducer and
    is itself a sequence that a second pass removes. *)
Lemma sanitize_not_idempotent :
  let s := [ESC; ESC] ++ py "[m[m" in
  strip_ansi_escape_sequences s = [ESC] ++ py "[m"
  /\ In ESC (strip_ansi_escape_sequences s)
  /\ strip_ansi_escape_sequences (strip_ansi_escape_sequences s) = []
  /\ strip_ansi_escape_sequences (strip_ansi_escape_sequences s)
     <> strip_ansi_escape_sequences s.
Proof.
  cbv zeta. repeat split; try reflexivity.
  - vm_compute. left. reflexivity.
  - vm_compute. discriminate.
Qed.

(** ** The prompt check *)

Lemma lstrip_app (a b : str) (c : char) :
  isspace c = false -> lstrip (a ++ c :: b) = lstrip a ++ c :: b.
Proof.
  intros Hc. induction a as [|x a IH]; simpl.
  - now rewrite Hc.
  - destruct (isspace x); [exact IH | reflexivity].
Qed.

Lemma lstrip_incl (s : str) (x : char) : In x (lstrip s) -> In x s.
Proof.
  induction s as [|c s IH]; simpl; [tauto|].
  destruct (isspace c); [intros H; right; apply IH, H | tauto].
Qed.

Lemma rstrip_keeps (a : str) (c : char) :
  isspace c = false -> rstrip (a ++ [c]) = a ++ [c].
Proof.
  intros Hc. unfold rstrip. rewrite rev_app_distr. simpl. rewrite Hc.
  change (c :: rev a) with (rev [c] ++ rev a).
  rewrite <- rev_app_distr. apply rev_involutive.
Qed.

Lemma rstrip_drops (a : str) (c : char) :
  isspace c = true -> rstrip (a ++ [c]) = rstrip a.
Proof.
  intros Hc. unfold rstrip. rewrite rev_app_distr. simpl. now rewrite Hc.
Qed.

Lemma split_without_sep (sep : char) (s : str) :
  ~ In sep s -> split sep s = [s].
Proof.
  induction s as [|c s IH]; intros Hno; [reflexivity|].
  simpl. destruct (N.eqb c sep) eqn:E.
  - apply N.eqb_eq in E. exfalso. apply Hno. left. exact E.
  - rewrite IH; [reflexivity|]. intros H. apply Hno. right. exact H.
Qed.

Lemma split_app_last (sep : char) (a b : str) :
  ~ In sep b ->
  split sep (a ++ b)
  = removelast (split sep a) ++ [last (split sep a) [] ++ b].
Proof.
  intros Hb. induction a as [|c a IH].
  - simpl. apply split_without_sep. exact Hb.
  - pose proof (split_not_nil sep a) as Hne.
    cbn [app split]. rewrite IH. destruct (N.eqb c sep).
    + destruct (split sep a) as [|l ls]; [contradiction|]. reflexivity.
    + destruct (split sep a) as [|l ls]; [contradiction|].
      destruct ls as [|m ms]; reflexivity.
Qed.

Lemma split_incl (sep : char) (s line : str) (x : char) :
  In line (split sep s) -> In x line -> In x s.
Proof.
  revert line; induction s as [|c s IH]; intros line; simpl.
  - intros [<- | []] [].
  - destruct (N.eqb c sep).
    + intros [<- | H] Hx; [destruct Hx | right; eapply IH; eassumption].
    + pose proof (split_not_nil sep s) as Hne.
      destruct (split sep s) as [|l ls]; [contradiction|].
      intros [<- | H] Hx.
      * destruct Hx as [-> | Hx]; [left; reflexivity|].
        right. apply (IH l); [left; reflexivity | exact Hx].
      * right. apply (IH line); [right; exact H | exact Hx].
Qed.

Lemma last_split_incl (sep : char) (s : str) (x : char) :
  In x (last (split sep s) []) -> In x s.
Proof.
  intros Hx. apply (split_incl sep s (last (split sep s) [])); [|exact Hx].
  pose proof (split_not_nil sep s) as Hne.
  destruct (exists_last Hne) as [front [l ->]].
  rewrite last_last. apply in_or_app. right. left. reflexivity.
Qed.

Lemma ends_with_prompt_unfold (line : str) :
  ends_with_prompt line
  = endswith line (py "pry(main)>")
    || endswith line (py "]$")
    || endswith line (py "]#")
    || endswith line (py "#")
    || endswith line (py "$").
Proof.
  unfold ends_with_prompt, prompt_patterns. cbn [existsb].
  rewrite orb_false_r, !orb_assoc. reflexivity.
Qed.

Lemma bare_gt_is_no_prompt (line : str) :
  endswith line (py ">") = true ->
  ends_with_prompt line = endswith line (py "pry(main)>").
Proof.
  rewrite ends_with_prompt_unfold. unfold endswith.
  destruct (rev line) as [|c r]; [discriminate|].
  change (rev (py ">")) with [62%N]. cbn [startswith]. rewrite andb_true_r.
  intros Hc. apply N.eqb_eq in Hc. subst c.
  change (rev (py "]$")) with [36%N; 93%N].
  change (rev (py "]#")) with [35%N; 93%N].
  change (rev (py "#")) with [35%N].
  change (rev (py "$")) with [36%N].
  cbn [startswith N.eqb Pos.eqb andb]. now rewrite !orb_false_r.
Qed.

(** ** [capture_tmux_output] *)

(** C6, as the code has it: the capture of a process that ran to
    completion with exit status 0 is its standard output; a timeout of
    the invocation (and a [CalledProcessError]) gives the empty string;
    every other exception of the invocation reaches the caller. *)
Theorem capture_failure_handling
  (capture_pane : str -> Z -> run_outcome) (session_name : str) (lines : Z) :
  (forall stdout,
      capture_pane session_name lines = CompletedProcess 0 stdout ->
      capture_tmux_output capture_pane session_name lines = Value stdout)
  /\ (capture_pane session_name lines = Raised TimeoutExpired \/
      capture_pane session_name lines = Raised CalledProcessError ->
      capture_tmux_output capture_pane session_name lines = Value [])
  /\ (forall e,
         capture_pane session_name lines = Raised e ->
         e <> TimeoutExpired -> e <> CalledProcessError ->
         capture_tmux_output capture_pane session_name lines = Propagates e).
Proof.
  unfold capture_tmux_output. split; [|split].
  - intros stdout ->. reflexivity.
  - intros [-> | ->]; reflexivity.
  - intros e -> H1 H2. destruct e; try reflexivity; contradiction.
Qed.

Lemma capture_failure_handling_witness :
  capture_tmux_output (fun _ _ => CompletedProcess 0 (py "$ ")) (py "main") 100
  = Value (py "$ ")
  /\ capture_tmux_output (fun _ _ => Raised TimeoutExpired) (py "main") 100
     = Value []
  /\ capture_tmux_output (fun _ _ => Raised UnicodeDecodeError) (py "main") 100
     = Propagates UnicodeDecodeError.
Proof.
  split; [|split].
  - apply (proj1 (capture_failure_handling
                    (fun _ _ => CompletedProcess 0 (py "$ ")) (py "main") 100)).
    reflexivity.
  - apply (proj1 (proj2 (capture_failure_handling
                    (fun _ _ => Raised TimeoutExpired) (py "main") 100))).
    left. reflexivity.
  - apply (proj2 (proj2 (capture_failure_handling
                    (fun _ _ => Raised UnicodeDecodeError) (py "main") 100)));
      [reflexivity | discriminate | discriminate].
Defined.

(** C6 as stated fails: when tmux cannot be started, [subprocess.run]
    raises an [OSError]; neither [except] clause catches it and the
    call raises instead of returning the empty string. *)
Lemma capture_propagates_oserror :
  capture_tmux_output (fun _ _ => Raised OSError) (py "main") 100
  = Propagates OSError
  /\ capture_tmux_output (fun _ _ => Raised OSError) (py "main") 100
     <> Value [].
Proof. split; [reflexivity | discriminate]. Qed.

(** ** [wait_for_output_completion] *)

Section PollProperties.

Variable command_sent : option str.
Variable max_wait_sec : Z.
Variable start_time : Q.

Abbreviation body := (loop_body command_sent max_wait_sec start_time).
Abbreviation loop := (poll_loop command_sent max_wait_sec start_time).
Abbreviation timed_out := (timed_out_at max_wait_sec start_time).
Abbreviation trim o := (_trim_output_to_command o command_sent).

Lemma timed_out_iff (t : tick) :
  timed_out t = true
  <-> (inject_Z max_wait_sec < tick_time t - start_time)%Q.
Proof.
  unfold timed_out_at. rewrite negb_true_iff.
  split.
  - intros H. apply Qnot_le_lt. intros Hle.
    apply Qle_bool_iff in Hle. congruence.
  - intros H. destruct (Qle_bool _ _) eqn:E; [|reflexivity].
    apply Qle_bool_iff in E. exfalso. exact (Qlt_not_le _ _ H E).
Qed.

Lemma poll_loop_app (st st' : poll_state) (before rest : list tick) :
  loop st before = Sleep st' ->
  loop st (before ++ rest) = loop st' rest.
Proof.
  revert st; induction before as [|t before IH]; intros st; simpl.
  - intros [= ->]. reflexivity.
  - destruct (body st t); [discriminate | apply IH].
Qed.

(** What each of the three [return] statements gives back. *)
Lemma loop_body_return (st : poll_state) (t : tick)
      (out : str) (to ex : bool) :
  body st t = Return (out, to, ex) ->
  out = trim (tick_capture t)
  /\ to = timed_out t
  /\ ex = negb (timed_out t) && negb (tick_session_exists t)
  /\ (to = false -> ex = false ->
      check_prompts (observe command_sent st (tick_capture t))
                    (trim (tick_capture t)) = true
      /\ ends_with_prompt (clean_last_line (trim (tick_capture t))) = true).
Proof.
  unfold loop_body.
  destruct (timed_out t); [intros [= <- <- <-]; repeat split; discriminate|].
  destruct (tick_session_exists t); cbn [negb andb];
    [|intros [= <- <- <-]; repeat split; discriminate].
  destruct (check_prompts _ _); [|discriminate].
  destruct (ends_with_prompt _); [|discriminate].
  intros [= <- <- <-]. repeat split.
Qed.

Lemma poll_loop_return (st : poll_state) (ticks : list tick)
      (r : str * bool * bool) :
  loop st ticks = Return r ->
  exists before st' t after,
    ticks = before ++ t :: after
    /\ loop st before = Sleep st'
    /\ body st' t = Return r.
Proof.
  revert st; induction ticks as [|t ticks IH]; intros st; simpl;
    [discriminate|].
  destruct (body st t) as [r'|st1] eqn:E.
  - intros [= ->]. exists [], st, t, ticks. repeat split. exact E.
  - intros H. destruct (IH _ H) as (before & st' & t' & after & -> & Hl & Hb).
    exists (t :: before), st', t', after. repeat split; [|exact Hb].
    simpl. rewrite E. exact Hl.
Qed.

(** C1: at a tick where the elapsed time exceeds [max_wait_sec] the
    poll, if it is still running, returns the timed-out triple with
    the trimmed capture of that tick, whether or not the session
    still exists: the timeout test comes before the liveness test and
    before the prompt check. *)
Theorem timeout_checked_first
        (st st' : poll_state) (before after : list tick) (t : tick) :
  loop st before = Sleep st' ->
  (inject_Z max_wait_sec < tick_time t - start_time)%Q ->
  body st' t = Return (trim (tick_capture t), true, false)
  /\ loop st (before ++ t :: after)
     = Return (trim (tick_capture t), true, false).
Proof.
  intros Hrun Hlate. apply timed_out_iff in Hlate.
  assert (Hb : body st' t = Return (trim (tick_capture t), true, false))
    by (unfold loop_body; rewrite Hlate; reflexivity).
  split; [exact Hb|].
  rewrite (poll_loop_app _ _ _ _ Hrun). simpl. rewrite Hb. reflexivity.
Qed.

Lemma observe_latches (st : poll_state) (current_output : str) :
  (output_changed st = true ->
   output_changed (observe command_sent st current_output) = true)
  /\ (command_seen st = true ->
      command_seen (observe command_sent st current_output) = true).
Proof.
  unfold observe; cbn [output_changed command_seen]. split; intros ->.
  - destruct (negb _); reflexivity.
  - destruct (_ && _); reflexivity.
Qed.

Lemma loop_body_sleep (st st' : poll_state) (t : tick) :
  body st t = Sleep st' ->
  st' = observe command_sent st (tick_capture t).
Proof.
  unfold loop_body.
  destruct (timed_out t); [discriminate|].
  destruct (negb (tick_session_exists t)); [discriminate|].
  destruct (_ && _); [discriminate|]. intros [= <-]. reflexivity.
Qed.

(** C7: a latch that is true stays true: through the assignments of
    one iteration, and from the state at any tick to the state at
    any later tick of the same call. *)
Theorem latches_never_reset
        (st st1 st2 : poll_state) (before later : list tick) :
  loop st before = Sleep st1 ->
  loop st (before ++ later) = Sleep st2 ->
  (forall current_output,
      (output_changed st1 = true ->
       output_changed (observe command_sent st1 current_output) = true)
      /\ (command_seen st1 = true ->
          command_seen (observe command_sent st1 current_output) = true))
  /\ (output_changed st1 = true -> output_changed st2 = true)
  /\ (command_seen st1 = true -> command_seen st2 = true).
Proof.
  intros H1 H2. split; [intros; apply observe_latches|].
  rewrite (poll_loop_app _ _ _ _ H1) in H2. clear H1.
  revert st1 H2. induction later as [|t later IH]; intros st1; simpl.
  - intros [= ->]. auto.
  - destruct (body st1 t) as [r|st'] eqn:E; [discriminate|].
    intros H. apply loop_body_sleep in E. subst st'.
    destruct (IH _ H) as [Ho Hc].
    destruct (observe_latches st1 (tick_capture t)) as [Ho1 Hc1].
    split; auto.
Qed.

(** C9: the triple a call returns never has both flags set: a
    timed-out return is [(True, False)], a session-exit return is
    [(False, True)] and happens only at a tick that has not timed
    out, and [(False, False)] is returned only after a successful
    prompt check at a tick that has neither timed out nor lost its
    session. *)
Theorem returned_flags_exclusive
        (st : poll_state) (ticks : list tick)
        (out : str) (to ex : bool) :
  loop st ticks = Return (out, to, ex) ->
  to && ex = false
  /\ exists before st' t after,
      ticks = before ++ t :: after
      /\ loop st before = Sleep st'
      /\ out = trim (tick_capture t)
      /\ to = timed_out t
      /\ ex = negb (timed_out t) && negb (tick_session_exists t)
      /\ (to = false -> ex = false ->
          tick_session_exists t = true
          /\ ends_with_prompt (clean_last_line (trim (tick_capture t)))
             = true).
Proof.
  intros H. apply poll_loop_return in H.
  destruct H as (before & st' & t & after & -> & Hl & Hb).
  apply loop_body_return in Hb. destruct Hb as (-> & -> & -> & Hc).
  split; [destruct (timed_out t); reflexivity|].
  exists before, st', t, after. repeat split; try assumption.
  - destruct (timed_out t); [discriminate|].
    destruct (tick_session_exists t); [reflexivity | discriminate].
  - apply Hc; assumption.
Qed.

End PollProperties.

Section PromptCheck.

Variable command_sent : option str.
Variable max_wait_sec : Z.
Variable start_time : Q.

Abbreviation body' := (loop_body command_sent max_wait_sec start_time).
Abbreviation loop' := (poll_loop command_sent max_wait_sec start_time).
Abbreviation trim' o := (_trim_output_to_command o command_sent).

(** As long as every capture equals the baseline and never shows the
    command, both latches stay false and no iteration returns
    [(_, False, False)]. *)
Lemma quiet_loop_never_completes (pre : str) (ticks : list tick) :
  (forall t, In t ticks ->
             tick_capture t = pre
             /\ command_in command_sent (tick_capture t) = false) ->
  forall st out,
    last_output st = pre ->
    output_changed st = false ->
    command_seen st = false ->
    loop' st ticks <> Return (out, false, false).
Proof.
  induction ticks as [|t ticks IH]; intros Hq st out Hl Ho Hc; simpl;
    [discriminate|].
  destruct (Hq t (or_introl eq_refl)) as [Hcap Hin].
  unfold loop_body.
  destruct (timed_out_at max_wait_sec start_time t); [discriminate|].
  destruct (negb (tick_session_exists t)); [discriminate|].
  assert (Hst : observe command_sent st (tick_capture t)
                = {| last_output := pre; output_changed := false;
                     command_seen := false;
                     poll_count := S (poll_count st) |}).
  { unfold observe. rewrite Hin, Hcap, Hl, Ho, Hc, str_eqb_refl.
    reflexivity. }
  rewrite Hst. unfold check_prompts at 1. cbn [output_changed command_seen orb andb].
  apply IH; try reflexivity.
  intros t' Ht'. apply Hq. right. exact Ht'.
Qed.

(** C2: an iteration returns [(_, False, False)] only when, after its
    assignments, one of the latches is true and the trimmed capture is
    not empty; and when [pre_command_output] equals every capture and
    the command shows in none of them, the call never returns
    [(_, False, False)], whatever the last line looks like. *)
Theorem stale_prompt_suppressed :
  (forall st t out,
      body' st t = Return (out, false, false) ->
      output_changed (observe command_sent st (tick_capture t))
      || command_seen (observe command_sent st (tick_capture t)) = true
      /\ trim' (tick_capture t) <> [])
  /\ (forall (pre first_capture : str) (ticks : list tick) (out : str),
         (forall t, In t ticks ->
                    tick_capture t = pre
                    /\ command_in command_sent (tick_capture t) = false) ->
         wait_for_output_completion command_sent max_wait_sec (Some pre)
                                    start_time first_capture ticks
         <> Return (out, false, false)).
Proof.
  split.
  - intros st t out H. apply loop_body_return in H.
    destruct H as (_ & _ & _ & H). destruct (H eq_refl eq_refl) as [Hc _].
    unfold check_prompts in Hc. apply andb_true_iff in Hc.
    destruct Hc as [Hl Hne]. split; [exact Hl|].
    intros E. rewrite E in Hne. discriminate.
  - intros pre first_capture ticks out Hq.
    unfold wait_for_output_completion.
    destruct ticks as [|t ticks]; [discriminate|].
    apply (quiet_loop_never_completes pre); try reflexivity; [exact Hq|].
    cbn [initial_state command_seen].
    destruct (Hq t (or_introl eq_refl)) as [<- Hin]. exact Hin.
Qed.

End PromptCheck.

(** C5 as stated fails twice: the pattern for the user prompt ["]$"]
    comes before the one for the root prompt ["]#"], not after it; and
    a last line ending in ["pry(main)> "] does not pass the check when
    an unfinished escape sequence before it takes the [p] with it. *)
Lemma prompt_order_user_before_root :
  prompt_patterns <> [py "pry(main)>"; py "]#"; py "]$"; py "#"; py "$"]
  /\ nth 1 prompt_patterns [] = py "]$"
  /\ nth 2 prompt_patterns [] = py "]#"
  /\ clean_last_line ([ESC] ++ py "[pry(main)> ") = py "ry(main)>"
  /\ ends_with_prompt (clean_last_line ([ESC] ++ py "[pry(main)> ")) = false.
Proof.
  split; [vm_compute; discriminate|]. repeat split.
Qed.

(** ** Runs of the poller on sample panes *)

(** Scenario A: the prompt is back after the echoed command. *)
Example scenario_prompt_back :
  sample_poll (Some pane_before) [sample_tick 1 true pane_done]
  = Return (pane_done, false, false).
Proof. reflexivity. Qed.

(** Scenario B: no prompt until the deadline has passed. *)
Example scenario_deadline :
  sample_poll (Some pane_before)
              [sample_tick 1 true pane_busy; sample_tick 20 true pane_busy;
               sample_tick 21 true pane_busy]
  = Return (pane_busy, true, false).
Proof. reflexivity. Qed.

(** Scenario C: the session is gone at the third tick. *)
Example scenario_session_gone :
  sample_poll (Some pane_before)
              [sample_tick 1 true pane_busy; sample_tick 2 true pane_busy;
               sample_tick 3 false pane_done]
  = Return (pane_done, false, true).
Proof. reflexivity. Qed.

(** Scenario D: the pane still shows the old prompt only. *)
Example scenario_stale_prompt :
  exists st,
    sample_poll (Some pane_before) [sample_tick 1 true pane_before]
    = Sleep st
    /\ output_changed st = false /\ command_seen st = false.
Proof. eexists. repeat split. Qed.

Lemma timeout_checked_first_witness :
  let st := initial_state (Some (py "echo hi")) (Some pane_before) pane_before in
  poll_loop (Some (py "echo hi")) 20 0%Q st
            ([sample_tick 1 true pane_busy] ++ sample_tick 21 false pane_done :: [])
  = Return (pane_done, true, false).
Proof.
  intros st.
  refine (proj2 (timeout_checked_first
                   (Some (py "echo hi")) 20 0%Q st
                   (observe (Some (py "echo hi")) st pane_busy)
                   [sample_tick 1 true pane_busy] []
                   (sample_tick 21 false pane_done) _ _)).
  - reflexivity.
  - reflexivity.
Defined.

Lemma stale_prompt_suppressed_witness :
  sample_poll (Some pane_before)
              [sample_tick 1 true pane_before; sample_tick 2 true pane_before]
  <> Return (pane_before, false, false).
Proof.
  apply (proj2 (stale_prompt_suppressed (Some (py "echo hi")) 20 0%Q)).
  intros t [<- | [<- | []]]; split; reflexivity.
Defined.

Lemma latches_never_reset_witness :
  let cmd := Some (py "echo hi") in
  let st := initial_state cmd (Some pane_before) pane_before in
  let st1 := observe cmd st pane_busy in
  let st2 := observe cmd st1 pane_busy in
  (output_changed st1 = true -> output_changed st2 = true)
  /\ (command_seen st1 = true -> command_seen st2 = true).
Proof.
  intros cmd st st1 st2.
  refine (proj2 (latches_never_reset
                   cmd 20 0%Q st st1 st2
                   [sample_tick 1 true pane_busy]
                   [sample_tick 2 true pane_busy] _ _)).
  - reflexivity.
  - reflexivity.
Defined.

Lemma returned_flags_exclusive_witness :
  sample_poll (Some pane_before)
              [sample_tick 1 true pane_busy; sample_tick 2 false pane_done]
  = Return (pane_done, false, true)
  /\ false && true = false.
Proof.
  split; [reflexivity|].
  refine (proj1 (returned_flags_exclusive
                   (Some (py "echo hi")) 20 0%Q
                   (initial_state (Some (py "echo hi")) (Some pane_before)
                                  pane_before)
                   [sample_tick 1 true pane_busy; sample_tick 2 false pane_done]
                   pane_done false true _)).
  reflexivity.
Defined.

(* ================================================================== *)
(** * Further properties of the helpers *)

(** ** Lines *)

Lemma split_lines_without_sep (sep : char) (s line : str) :
  In line (split sep s) -> ~ In sep line.
Proof.
  revert line; induction s as [|c s IH]; intros line; simpl.
  - intros [<- | []] [].
  - destruct (N.eqb c sep) eqn:E.
    + intros [<- | H]; [intros [] | apply IH, H].
    + pose proof (split_not_nil sep s) as Hne.
      destruct (split sep s) as [|l ls]; [contradiction|].
      intros [<- | H].
      * intros [-> | Hin]; [rewrite N.eqb_refl in E; discriminate|].
        apply (IH l); [left; reflexivity | exact Hin].
      * apply IH. right. exact H.
Qed.

Lemma split_app_sep (sep : char) (p s : str) :
  ~ In sep p -> split sep (p ++ sep :: s) = p :: split sep s.
Proof.
  induction p as [|c p IH]; intros Hp; simpl.
  - now rewrite N.eqb_refl.
  - destruct (N.eqb c sep) eqn:E.
    + apply N.eqb_eq in E. exfalso. apply Hp. left. exact E.
    + rewrite IH; [reflexivity|]. intros H. apply Hp. right. exact H.
Qed.

(** Splitting a join gives the parts back when no part holds the
    separator. *)
Lemma split_join (sep : char) (parts : list str) :
  parts <> [] ->
  (forall p, In p parts -> ~ In sep p) ->
  split sep (join [sep] parts) = parts.
Proof.
  induction parts as [|p ps IH]; intros Hne Hparts; [contradiction|].
  destruct ps as [|q ps].
  - simpl. apply split_without_sep. apply Hparts. left. reflexivity.
  - rewrite join_cons by discriminate. cbn [app].
    rewrite split_app_sep by (apply Hparts; left; reflexivity).
    rewrite IH; [reflexivity | discriminate |].
    intros p' Hp'. apply Hparts. right. exact Hp'.
Qed.

Lemma skipn_not_nil {A : Type} (k : nat) (l : list A) :
  k < length l -> skipn k l <> [].
Proof.
  intros Hk E. apply (f_equal (@length A)) in E.
  rewrite length_skipn in E. simpl in E. lia.
Qed.

Lemma In_skipn {A : Type} (k : nat) (l : list A) (x : A) :
  In x (skipn k l) -> In x l.
Proof.
  intros H. rewrite <- (firstn_skipn k l). apply in_or_app. right. exact H.
Qed.

Lemma nth_skipn_str (k j : nat) (l : list str) :
  nth j (skipn k l) [] = nth (k + j) l [].
Proof.
  revert l; induction k as [|k IH]; intros l; [reflexivity|].
  destruct l as [|x l]; [destruct j; reflexivity|]. apply IH.
Qed.

Lemma scan_back_later (command : str) (lines : list str) (n k : nat) :
  scan_back command lines n = Some k ->
  forall j, k < j < n -> contains command (nth j lines []) = false.
Proof.
  induction n as [|n IH]; simpl; [discriminate|].
  destruct (contains command (nth n lines [])) eqn:E.
  - intros [= <-] j Hj. lia.
  - intros H j Hj. destruct (Nat.eq_dec j n) as [->|Hne]; [exact E|].
    apply IH; [exact H | lia].
Qed.

Lemma scan_back_none_inv (command : str) (lines : list str) (n : nat) :
  scan_back command lines n = None ->
  forall j, j < n -> contains command (nth j lines []) = false.
Proof.
  induction n as [|n IH]; simpl; [intros _ j Hj; lia|].
  destruct (contains command (nth n lines [])) eqn:E; [discriminate|].
  intros H j Hj. destruct (Nat.eq_dec j n) as [->|Hne]; [exact E|].
  apply IH; [exact H | lia].
Qed.

(** What [_trim_output_to_command] returns when the scan finds the
    command at line [k]. *)
Lemma trim_found (output c : str) (k : nat) :
  c <> [] -> output <> [] ->
  scan_back c (split NL output) (length (split NL output)) = Some k ->
  _trim_output_to_command output (Some c)
  = join [NL] (skipn k (split NL output))
  /\ split NL (_trim_output_to_command output (Some c))
     = skipn k (split NL output).
Proof.
  intros Hc Ho Hscan. unfold _trim_output_to_command.
  destruct c; [contradiction|]. destruct output; [contradiction|].
  cbn [is_empty orb]. cbv zeta. rewrite Hscan.
  split; [reflexivity|].
  apply scan_back_some in Hscan. destruct Hscan as [Hk _].
  apply split_join; [apply skipn_not_nil; exact Hk|].
  intros p Hp. apply In_skipn in Hp.
  apply split_lines_without_sep in Hp. exact Hp.
Qed.

(** X1: trimming is idempotent: trimming the result again to the same
    command changes nothing. *)
Theorem trim_idempotent (output : str) (command : option str) :
  _trim_output_to_command (_trim_output_to_command output command) command
  = _trim_output_to_command output command.
Proof.
  destruct command as [c|]; [|reflexivity].
  destruct c as [|c0 c]; [reflexivity|].
  destruct output as [|o output]; [reflexivity|].
  set (cmd := c0 :: c : str). set (out := o :: output : str).
  destruct (scan_back cmd (split NL out) (length (split NL out)))
    as [k|] eqn:Hscan.
  - assert (Hcmd : cmd <> []) by discriminate.
    assert (Hout : out <> []) by discriminate.
    destruct (trim_found out cmd k Hcmd Hout Hscan) as [Hr Hs].
    pose proof (scan_back_some _ _ _ _ Hscan) as [Hk Hin].
    pose proof (scan_back_later _ _ _ _ Hscan) as Hlater.
    assert (Hne : _trim_output_to_command out (Some cmd) <> []).
    { rewrite Hr. apply join_skipn_not_nil. intros E. rewrite E in Hin.
      apply contains_in_empty in Hin. discriminate. }
    assert (Hscan' :
              scan_back cmd (split NL (_trim_output_to_command out (Some cmd)))
                (length (split NL (_trim_output_to_command out (Some cmd))))
              = Some 0).
    { rewrite Hs. apply scan_back_last.
      - rewrite length_skipn. lia.
      - rewrite nth_skipn_str, Nat.add_0_r. exact Hin.
      - intros j Hj. rewrite length_skipn in Hj.
        rewrite nth_skipn_str. apply Hlater. lia. }
    destruct (trim_found _ cmd 0 Hcmd Hne Hscan') as [Hr' _].
    rewrite Hr'. cbn [skipn]. apply join_split.
  - assert (E : _trim_output_to_command out (Some cmd) = out).
    { unfold _trim_output_to_command at 1. subst cmd out.
      cbn [is_empty orb]. cbv zeta. rewrite Hscan. reflexivity. }
    rewrite !E. reflexivity.
Qed.

(** X2: when some line of the output contains the (non-empty) command,
    the result begins with a line that contains the command, and no
    line after it does. *)
Theorem trim_begins_at_command_line (output c : str) :
  c <> [] ->
  (exists line, In line (split NL output) /\ contains c line = true) ->
  exists first rest,
    split NL (_trim_output_to_command output (Some c)) = first :: rest
    /\ contains c first = true
    /\ (forall line, In line rest -> contains c line = false).
Proof.
  intros Hc [line [Hin Hcont]].
  assert (Ho : output <> []).
  { intros ->. simpl in Hin. destruct Hin as [<- | []].
    apply contains_in_empty in Hcont. contradiction. }
  destruct (scan_back c (split NL output) (length (split NL output)))
    as [k|] eqn:Hscan.
  - destruct (trim_found output c k Hc Ho Hscan) as [_ Hs].
    pose proof (scan_back_some _ _ _ _ Hscan) as [Hk Hk_in].
    pose proof (scan_back_later _ _ _ _ Hscan) as Hlater.
    exists (nth k (split NL output) []), (skipn (S k) (split NL output)).
    split; [|split].
    + rewrite Hs. clear -Hk. revert k Hk.
      induction (split NL output) as [|l ls IH]; intros k Hk;
        [simpl in Hk; lia|].
      destruct k; [reflexivity|]. simpl in Hk. cbn [skipn nth].
      rewrite IH by lia. reflexivity.
    + exact Hk_in.
    + intros l Hl. destruct (In_nth _ _ [] Hl) as [j [Hj <-]].
      rewrite length_skipn in Hj. rewrite nth_skipn_str.
      apply Hlater. lia.
  - exfalso. destruct (In_nth _ _ [] Hin) as [j [Hj Hnth]].
    pose proof (scan_back_none_inv _ _ _ Hscan j Hj) as Hf.
    pose proof (eq_trans (f_equal (contains c) (eq_sym Hnth)) Hf) as Hf'.
    congruence.
Qed.

Lemma trim_begins_at_command_line_witness :
  exists first rest,
    split NL (_trim_output_to_command pane_done (Some (py "echo hi")))
    = first :: rest
    /\ contains (py "echo hi") first = true
    /\ (forall line, In line rest -> contains (py "echo hi") line = false).
Proof.
  apply trim_begins_at_command_line; [discriminate|].
  exists (py "user@host:~$ echo hi"). split; [left|]; reflexivity.
Defined.

(** X3: a command that contains a newline is found in no line, so the
    output comes back untrimmed. *)
Theorem trim_multiline_command (output c : str) :
  In NL c -> _trim_output_to_command output (Some c) = output.
Proof.
  intros Hnl. unfold _trim_output_to_command.
  destruct (is_empty c || is_empty output); [reflexivity|].
  cbv zeta. rewrite scan_back_none; [reflexivity|].
  intros j Hj.
  destruct (contains c (nth j (split NL output) [])) eqn:E; [|reflexivity].
  exfalso. apply contains_iff in E. destruct E as [a [b E]].
  apply (split_lines_without_sep NL output (nth j (split NL output) [])).
  - apply nth_In. exact Hj.
  - rewrite E. apply in_or_app. right. apply in_or_app. left. exact Hnl.
Qed.

Lemma trim_multiline_command_witness :
  _trim_output_to_command pane_done (Some (py "echo hi" ++ [NL] ++ py "hi"))
  = pane_done.
Proof.
  apply trim_multiline_command. vm_compute. do 7 right. left. reflexivity.
Defined.

(** ** Escape sequences *)

Lemma re_match_star_step (cs : cset) (c : char) (s : str)
      (k : str -> option str) :
  re_match (Star cs) (c :: s) k
  = if cset_mem c cs
    then match re_match (Star cs) s k with
         | Some rest => Some rest
         | None => k (c :: s)
         end
    else k (c :: s).
Proof. reflexivity. Qed.

Lemma re_match_star_stop (cs : cset) (s : str) (k : str -> option str) :
  match s with c :: _ => cset_mem c cs = false | [] => True end ->
  re_match (Star cs) s k = k s.
Proof.
  destruct s as [|c s]; [reflexivity|].
  intros H. rewrite re_match_star_step, H. reflexivity.
Qed.

(** A greedy star over a run of its set, when the text behind the run
    does not go on with the set and the rest of the pattern matches
    there. *)
Lemma re_match_star_run (cs : cset) (run s rest : str)
      (k : str -> option str) :
  (forall x, In x run -> cset_mem x cs = true) ->
  match s with c :: _ => cset_mem c cs = false | [] => True end ->
  k s = Some rest ->
  re_match (Star cs) (run ++ s) k = Some rest.
Proof.
  intros Hrun Hs Hk. induction run as [|c run IH].
  - simpl app. rewrite re_match_star_stop by exact Hs. exact Hk.
  - cbn [app]. rewrite re_match_star_step.
    rewrite (Hrun c (or_introl eq_refl)).
    rewrite IH; [reflexivity|]. intros x Hx. apply Hrun. right. exact Hx.
Qed.

Lemma ansi_sequence_matches (b fin : char) (params inter rest : str) :
  cset_mem b (Range 64 95) = true ->
  (forall x, In x params -> cset_mem x (Range 48 63) = true) ->
  (forall x, In x inter -> cset_mem x (Range 32 47) = true) ->
  cset_mem fin (Range 64 126) = true ->
  re_match ANSI_ESCAPE_PATTERN
           (ESC :: b :: params ++ inter ++ fin :: rest) Some
  = Some rest.
Proof.
  intros Hb Hparams Hinter Hfin.
  assert (Hfin3 : cset_mem fin (Range 32 47) = false).
  { unfold cset_mem in *. apply andb_true_iff in Hfin.
    destruct Hfin as [H1 _]. apply N.leb_le in H1.
    apply andb_false_iff. right. apply N.leb_gt. lia. }
  assert (Hfin2 : cset_mem fin (Range 48 63) = false).
  { unfold cset_mem in *. apply andb_true_iff in Hfin.
    destruct Hfin as [H1 _]. apply N.leb_le in H1.
    apply andb_false_iff. right. apply N.leb_gt. lia. }
  unfold ANSI_ESCAPE_PATTERN.
  change (re_match (Cat (One (Lit ESC)) ?r) (ESC :: ?s) Some)
    with (re_match r s Some).
  change (re_match (Cat (One (Range 64 95)) ?r) (b :: ?s) Some)
    with (if cset_mem b (Range 64 95) then re_match r s Some else None).
  rewrite Hb.
  change (re_match (Cat (Star (Range 48 63)) ?r) ?s Some)
    with (re_match (Star (Range 48 63)) s (fun s' => re_match r s' Some)).
  apply re_match_star_run; [exact Hparams | |].
  - destruct inter as [|x inter]; cbn [app]; [exact Hfin2|].
    pose proof (Hinter x (or_introl eq_refl)) as Hx.
    unfold cset_mem in *. apply andb_true_iff in Hx.
    destruct Hx as [_ H2]. apply N.leb_le in H2.
    apply andb_false_iff. left. apply N.leb_gt. lia.
  - change (re_match (Cat (Star (Range 32 47)) ?r) ?s Some)
      with (re_match (Star (Range 32 47)) s (fun s' => re_match r s' Some)).
    apply re_match_star_run; [exact Hinter | exact Hfin3 |].
    cbn [re_match]. rewrite Hfin. reflexivity.
Qed.

(** X4: text without escape introducer is copied to the result, and
    sanitizing goes on behind it. *)
Theorem sanitize_keeps_clean_prefix (t s : str) :
  ~ In ESC t ->
  strip_ansi_escape_sequences (t ++ s)
  = t ++ strip_ansi_escape_sequences s.
Proof.
  unfold strip_ansi_escape_sequences.
  induction t as [|c t IH]; intros Hno; [reflexivity|].
  cbn [app]. rewrite re_sub_empty_no_match.
  - f_equal. apply IH. intros H. apply Hno. right. exact H.
  - assert (Hc : c <> ESC) by (intros ->; apply Hno; left; reflexivity).
    pose proof (no_match_without_esc c (t ++ s) Hc) as Hm.
    unfold match_length in Hm.
    destruct (re_match ANSI_ESCAPE_PATTERN (c :: t ++ s) Some);
      [discriminate | reflexivity].
Qed.

Lemma sanitize_keeps_clean_prefix_witness :
  strip_ansi_escape_sequences (py "hi " ++ [ESC] ++ py "[0mthere")
  = py "hi " ++ strip_ansi_escape_sequences ([ESC] ++ py "[0mthere").
Proof.
  apply (sanitize_keeps_clean_prefix (py "hi ")).
  vm_compute. intros H.
  repeat (destruct H as [H|H]; [discriminate H|]). exact H.
Defined.

(** X5: a complete escape sequence at the head of the text (the
    introducer, one character of [@-_], parameter characters of [0-?],
    intermediate characters of [ -/] and a final character of [@-~])
    is removed, and sanitizing goes on behind it. *)
Theorem sanitize_removes_sequence (b fin : char) (params inter rest : str) :
  cset_mem b (Range 64 95) = true ->
  (forall x, In x params -> cset_mem x (Range 48 63) = true) ->
  (forall x, In x inter -> cset_mem x (Range 32 47) = true) ->
  cset_mem fin (Range 64 126) = true ->
  strip_ansi_escape_sequences (ESC :: b :: params ++ inter ++ fin :: rest)
  = strip_ansi_escape_sequences rest.
Proof.
  intros Hb Hparams Hinter Hfin.
  pose proof (ansi_sequence_matches b fin params inter rest
                                    Hb Hparams Hinter Hfin) as Hm.
  unfold strip_ansi_escape_sequences.
  replace (ESC :: b :: params ++ inter ++ fin :: rest)
    with ((ESC :: b :: params ++ inter ++ [fin]) ++ rest) in *
    by (cbn [app]; rewrite <- !app_assoc; reflexivity).
  apply re_sub_empty_match; [discriminate | exact Hm].
Qed.

Lemma sanitize_removes_sequence_witness :
  strip_ansi_escape_sequences
    (ESC :: 91%N :: py "01;32" ++ [] ++ 109%N :: py "user@host:~$")
  = strip_ansi_escape_sequences (py "user@host:~$").
Proof.
  apply (sanitize_removes_sequence 91%N 109%N (py "01;32") [] (py "user@host:~$")).
  - reflexivity.
  - intros x H. vm_compute in H.
    repeat (destruct H as [<-|H]; [reflexivity|]). destruct H.
  - intros x [].
  - reflexivity.
Defined.

Lemma sanitize_drops_escape_sequence (seq rest : str) :
  escape_sequence seq ->
  strip_ansi_escape_sequences (seq ++ rest)
  = strip_ansi_escape_sequences rest.
Proof.
  intros (b & fin & params & inter & -> & Hb & Hp & Hi & Hf).
  pose proof (ansi_sequence_matches b fin params inter rest Hb Hp Hi Hf) as Hm.
  unfold strip_ansi_escape_sequences.
  apply re_sub_empty_match; [discriminate|].
  cbn [app]. rewrite <- !app_assoc. exact Hm.
Qed.

(** X18: colour codes around a text do not reach the prompt check: a
    text without escape introducer between two complete escape
    sequences is sanitized to the text itself. *)
Theorem sanitize_coloured_text (seq1 seq2 text : str) :
  escape_sequence seq1 -> escape_sequence seq2 -> ~ In ESC text ->
  strip_ansi_escape_sequences (seq1 ++ text ++ seq2) = text.
Proof.
  intros H1 H2 Hclean.
  rewrite (sanitize_drops_escape_sequence seq1 _ H1).
  induction text as [|c text IH].
  - cbn [app]. rewrite <- (app_nil_r seq2).
    apply (sanitize_drops_escape_sequence seq2 [] H2).
  - assert (Hc : c <> ESC) by (intros ->; apply Hclean; left; reflexivity).
    pose proof (no_match_without_esc c (text ++ seq2) Hc) as Hm.
    unfold match_length in Hm.
    unfold strip_ansi_escape_sequences in *. cbn [app].
    rewrite re_sub_empty_no_match.
    + f_equal. apply IH. intros H. apply Hclean. right. exact H.
    + destruct (re_match ANSI_ESCAPE_PATTERN (c :: text ++ seq2) Some);
        [discriminate | reflexivity].
Qed.

Lemma sanitize_coloured_text_witness :
  strip_ansi_escape_sequences
    ((ESC :: py "[01;32m") ++ py "user@host:~$" ++ (ESC :: py "[0m"))
  = py "user@host:~$".
Proof.
  apply sanitize_coloured_text.
  - exists 91%N, 109%N, (py "01;32"), []. repeat split.
    + intros x H. vm_compute in H.
      repeat (destruct H as [<-|H]; [reflexivity|]). destruct H.
    + intros x [].
  - exists 91%N, 109%N, (py "0"), []. repeat split.
    + intros x [<- | []]. reflexivity.
    + intros x [].
  - vm_compute. intros H.
    repeat (destruct H as [H|H]; [discriminate H|]). exact H.
Defined.

(** *** Inputs whose escape introducers all begin a sequence *)

Lemma re_match_cat (r1 r2 : regex) (s : str) (k : str -> option str) :
  re_match (Cat r1 r2) s k = re_match r1 s (fun s' => re_match r2 s' k).
Proof. reflexivity. Qed.

Lemma re_match_one_inv (cs : cset) (s rest : str) (k : str -> option str) :
  re_match (One cs) s k = Some rest ->
  exists c s', s = c :: s' /\ cset_mem c cs = true /\ k s' = Some rest.
Proof.
  destruct s as [|c s]; cbn [re_match]; [discriminate|].
  destruct (cset_mem c cs) eqn:E; [|discriminate].
  intros H. exists c, s. repeat split; assumption.
Qed.

Lemma re_match_star_inv (cs : cset) (s rest : str) (k : str -> option str) :
  re_match (Star cs) s k = Some rest ->
  exists run s',
    s = run ++ s'
    /\ (forall x, In x run -> cset_mem x cs = true)
    /\ k s' = Some rest.
Proof.
  induction s as [|c s IH].
  - cbn [re_match]. intros H. exists [], [].
    split; [reflexivity | split; [intros x [] | exact H]].
  - rewrite re_match_star_step. destruct (cset_mem c cs) eqn:E.
    + destruct (re_match (Star cs) s k) as [r|] eqn:Hs.
      * intros [= ->]. destruct (IH eq_refl) as (run & s' & -> & Hrun & Hk).
        exists (c :: run), s'. split; [reflexivity|]. split; [|exact Hk].
        intros x [<- | Hx]; [exact E | apply Hrun, Hx].
      * intros H. exists [], (c :: s).
        split; [reflexivity | split; [intros x [] | exact H]].
    + intros H. exists [], (c :: s).
      split; [reflexivity | split; [intros x [] | exact H]].
Qed.

(** What the pattern matches at the head of a text is an escape
    sequence. *)
Lemma ansi_match_inv (s rest : str) :
  re_match ANSI_ESCAPE_PATTERN s Some = Some rest ->
  exists seq, escape_sequence seq /\ s = seq ++ rest.
Proof.
  unfold ANSI_ESCAPE_PATTERN. rewrite re_match_cat. intros H.
  apply re_match_one_inv in H. destruct H as (c & s1 & -> & Hc & H).
  apply N.eqb_eq in Hc. subst c.
  rewrite re_match_cat in H.
  apply re_match_one_inv in H. destruct H as (b & s2 & -> & Hb & H).
  rewrite re_match_cat in H.
  apply re_match_star_inv in H. destruct H as (params & s3 & -> & Hp & H).
  rewrite re_match_cat in H.
  apply re_match_star_inv in H. destruct H as (inter & s4 & -> & Hi & H).
  apply re_match_one_inv in H. destruct H as (fin & s5 & -> & Hf & [= ->]).
  exists (ESC :: b :: params ++ inter ++ [fin]). split.
  - exists b, fin, params, inter. repeat split; assumption.
  - cbn [app]. rewrite <- !app_assoc. reflexivity.
Qed.

Lemma range_excludes_esc (x lo hi : char) :
  (27 < lo)%N -> cset_mem x (Range lo hi) = true -> x <> ESC.
Proof.
  intros Hlo H. unfold cset_mem in H. apply andb_true_iff in H.
  destruct H as [H _]. apply N.leb_le in H. unfold ESC. lia.
Qed.

(** An escape sequence holds one introducer, its first character. *)
Lemma escape_sequence_shape (seq : str) :
  escape_sequence seq -> exists m, seq = ESC :: m /\ ~ In ESC m.
Proof.
  intros (b & fin & params & inter & -> & Hb & Hp & Hi & Hf).
  exists (b :: params ++ inter ++ [fin]). split; [reflexivity|].
  intros [E | Hin].
  - exact (range_excludes_esc b 64%N 95%N ltac:(lia) Hb E).
  - apply in_app_or in Hin. destruct Hin as [Hin | Hin].
    + exact (range_excludes_esc ESC 48%N 63%N ltac:(lia) (Hp _ Hin) eq_refl).
    + apply in_app_or in Hin. destruct Hin as [Hin | [E | []]].
      * exact (range_excludes_esc ESC 32%N 47%N ltac:(lia) (Hi _ Hin) eq_refl).
      * exact (range_excludes_esc fin 64%N 126%N ltac:(lia) Hf E).
Qed.

Lemma escapes_complete_clean_prefix (m r : str) :
  ~ In ESC m -> escapes_complete (m ++ r) = escapes_complete r.
Proof.
  induction m as [|c m IH]; intros Hm; [reflexivity|].
  cbn [app escapes_complete].
  assert (E : N.eqb c ESC = false)
    by (apply N.eqb_neq; intros ->; apply Hm; left; reflexivity).
  rewrite E. cbn [andb]. apply IH. intros H. apply Hm. right. exact H.
Qed.

Lemma escapes_complete_suffix (p s : str) :
  escapes_complete (p ++ s) = true -> escapes_complete s = true.
Proof.
  induction p as [|c p IH]; [trivial|].
  cbn [app escapes_complete]. intros H. apply andb_true_iff in H.
  apply IH, H.
Qed.

Lemma escapes_complete_sequence (seq r : str) :
  escape_sequence seq ->
  escapes_complete (seq ++ r) = escapes_complete r.
Proof.
  intros Hseq. destruct (escape_sequence_shape seq Hseq) as (m & Hm & Hclean).
  destruct Hseq as (b & fin & params & inter & E & Hb & Hp & Hi & Hf).
  pose proof (ansi_sequence_matches b fin params inter r Hb Hp Hi Hf) as Hmatch.
  assert (Hform : seq ++ r = ESC :: b :: params ++ inter ++ fin :: r)
    by (rewrite E; cbn [app]; rewrite <- !app_assoc; reflexivity).
  rewrite <- Hform in Hmatch. rewrite Hm in *. cbn [app] in *.
  cbn [escapes_complete]. rewrite N.eqb_refl, Hmatch. cbn [andb].
  apply escapes_complete_clean_prefix. exact Hclean.
Qed.

(** The three ways in which the substitution treats the head of a
    text. *)
Lemma sanitize_head (s : str) :
  s = []
  \/ (exists c s', s = c :: s' /\ c <> ESC
                   /\ strip_ansi_escape_sequences s
                      = c :: strip_ansi_escape_sequences s'
                   /\ escapes_complete s = escapes_complete s')
  \/ (exists seq rest, s = seq ++ rest /\ escape_sequence seq
                       /\ (length rest < length s)%nat
                       /\ strip_ansi_escape_sequences s
                          = strip_ansi_escape_sequences rest
                       /\ escapes_complete s = escapes_complete rest)
  \/ (exists s', s = ESC :: s'
                 /\ strip_ansi_escape_sequences s
                    = ESC :: strip_ansi_escape_sequences s'
                 /\ escapes_complete s = false).
Proof.
  destruct s as [|c s]; [left; reflexivity | right].
  destruct (N.eqb c ESC) eqn:Ec.
  - apply N.eqb_eq in Ec. subst c. right.
    destruct (re_match ANSI_ESCAPE_PATTERN (ESC :: s) Some) as [rest|] eqn:Hm.
    + left. destruct (ansi_match_inv _ _ Hm) as (seq & Hseq & E).
      exists seq, rest. split; [exact E|]. split; [exact Hseq|].
      destruct (escape_sequence_shape seq Hseq) as (m & -> & _).
      split; [rewrite E; cbn [app length]; rewrite length_app; lia|].
      rewrite E. split.
      * apply sanitize_drops_escape_sequence. exact Hseq.
      * apply escapes_complete_sequence. exact Hseq.
    + right. exists s. split; [reflexivity|]. split.
      * apply re_sub_empty_no_match. exact Hm.
      * cbn [escapes_complete]. rewrite N.eqb_refl, Hm. reflexivity.
  - left. apply N.eqb_neq in Ec. exists c, s. split; [reflexivity|].
    split; [exact Ec|]. split.
    + apply re_sub_empty_no_match.
      pose proof (no_match_without_esc c s Ec) as Hm. unfold match_length in Hm.
      destruct (re_match ANSI_ESCAPE_PATTERN (c :: s) Some);
        [discriminate | reflexivity].
    + cbn [escapes_complete]. apply N.eqb_neq in Ec. rewrite Ec. reflexivity.
Qed.

Lemma sanitize_esc_free_iff_bounded (n : nat) (s : str) :
  (length s <= n)%nat ->
  (escapes_complete s = true -> ~ In ESC (strip_ansi_escape_sequences s))
  /\ (escapes_complete s = false -> In ESC (strip_ansi_escape_sequences s)).
Proof.
  revert s. induction n as [|n IH]; intros s Hn.
  - destruct s; [|simpl in Hn; lia]. split; [intros _ [] | discriminate].
  - destruct (sanitize_head s)
      as [-> | [(c & s' & -> & Hc & Hs & He)
               | [(seq & rest & E & _ & Hlen & Hs & He)
                 | (s' & -> & Hs & He)]]].
    + split; [intros _ [] | discriminate].
    + rewrite Hs, He. simpl in Hn. destruct (IH s' ltac:(lia)) as [H1 H2].
      split.
      * intros H [E | Hin]; [exact (Hc E) | exact (H1 H Hin)].
      * intros H. right. exact (H2 H).
    + rewrite Hs, He. apply IH. lia.
    + rewrite Hs, He. split; [discriminate | intros _; left; reflexivity].
Qed.

Lemma sanitize_app_complete_bounded (n : nat) (a b : str) :
  (length a <= n)%nat ->
  escapes_complete a = true ->
  strip_ansi_escape_sequences (a ++ b)
  = strip_ansi_escape_sequences a ++ strip_ansi_escape_sequences b.
Proof.
  revert a. induction n as [|n IH]; intros a Hn Ha.
  - destruct a; [reflexivity | simpl in Hn; lia].
  - destruct (sanitize_head a)
      as [-> | [(c & a' & -> & Hc & Hs & He)
               | [(seq & rest & E & Hseq & Hlen & Hs & He)
                 | (a' & -> & Hs & He)]]].
    + reflexivity.
    + rewrite Hs. cbn [app]. rewrite He in Ha. simpl in Hn.
      rewrite <- (IH a' ltac:(lia) Ha).
      apply re_sub_empty_no_match.
      pose proof (no_match_without_esc c (a' ++ b) Hc) as Hm.
      unfold match_length in Hm.
      destruct (re_match ANSI_ESCAPE_PATTERN (c :: a' ++ b) Some);
        [discriminate | reflexivity].
    + rewrite Hs. rewrite He in Ha. rewrite <- (IH rest ltac:(lia) Ha).
      rewrite E, <- app_assoc.
      apply sanitize_drops_escape_sequence. exact Hseq.
    + rewrite He in Ha. discriminate.
Qed.

(** Where every introducer of [a] begins a sequence inside [a],
    sanitizing treats [a] and what follows it apart. *)
Lemma sanitize_app_complete (a b : str) :
  escapes_complete a = true ->
  strip_ansi_escape_sequences (a ++ b)
  = strip_ansi_escape_sequences a ++ strip_ansi_escape_sequences b.
Proof. apply (sanitize_app_complete_bounded (length a)). lia. Qed.

Lemma escapes_complete_without_esc (s : str) :
  ~ In ESC s -> escapes_complete s = true.
Proof.
  intros H. rewrite <- (app_nil_r s).
  rewrite escapes_complete_clean_prefix by exact H. reflexivity.
Qed.

(** C4, as the code has it: when every escape introducer of [s] begins
    a complete escape sequence (in particular when [s] holds no
    introducer, or only complete colour codes), the result of
    sanitizing holds no introducer and sanitizing it again changes
    nothing.  The condition is the weakest one for the first part: a
    result without introducer is obtained for no other input. *)
Theorem sanitize_idempotent_when_escapes_complete (s : str) :
  (escapes_complete s = true ->
   ~ In ESC (strip_ansi_escape_sequences s)
   /\ strip_ansi_escape_sequences (strip_ansi_escape_sequences s)
      = strip_ansi_escape_sequences s)
  /\ (~ In ESC (strip_ansi_escape_sequences s) ->
      escapes_complete s = true)
  /\ (~ In ESC s -> escapes_complete s = true).
Proof.
  destruct (sanitize_esc_free_iff_bounded (length s) s (Nat.le_refl _))
    as [H1 H2].
  split; [|split].
  - intros H. split; [exact (H1 H)|].
    apply sanitize_without_esc. exact (H1 H).
  - intros Hclean. destruct (escapes_complete s); [reflexivity|].
    exfalso. exact (Hclean (H2 eq_refl)).
  - apply escapes_complete_without_esc.
Qed.

Lemma sanitize_idempotent_when_escapes_complete_witness :
  let s := [ESC] ++ py "[01;32m" ++ py "user@host:~$" ++ [ESC] ++ py "[0m" in
  ~ In ESC (strip_ansi_escape_sequences s)
  /\ strip_ansi_escape_sequences (strip_ansi_escape_sequences s)
     = strip_ansi_escape_sequences s.
Proof.
  intros s.
  apply (proj1 (sanitize_idempotent_when_escapes_complete s)).
  reflexivity.
Defined.

(** ** The line the prompt check looks at *)

Lemma endswith_longer (line a b : str) :
  endswith line (a ++ b) = true -> endswith line b = true.
Proof.
  rewrite !endswith_iff. intros [front ->].
  exists (front ++ a). now rewrite <- app_assoc.
Qed.

(** X6: the two bracketed patterns add nothing: a line passes the
    prompt check exactly when it ends with ["pry(main)>"], with [#] or
    with [$]. *)
Theorem ends_with_prompt_decides_on_last_char (line : str) :
  ends_with_prompt line
  = endswith line (py "pry(main)>")
    || endswith line (py "#")
    || endswith line (py "$").
Proof.
  rewrite ends_with_prompt_unfold.
  pose proof (endswith_longer line (py "]") (py "$")) as Hd.
  pose proof (endswith_longer line (py "]") (py "#")) as Hh.
  change (py "]" ++ py "$") with (py "]$") in Hd.
  change (py "]" ++ py "#") with (py "]#") in Hh.
  destruct (endswith line (py "]$")); [rewrite Hd by reflexivity|];
    destruct (endswith line (py "]#")); try rewrite Hh by reflexivity;
    destruct (endswith line (py "pry(main)>"));
    destruct (endswith line (py "#"));
    destruct (endswith line (py "$")); reflexivity.
Qed.


Lemma lstrip_spaces (ws : str) :
  (forall x, In x ws -> isspace x = true) -> lstrip ws = [].
Proof.
  induction ws as [|c ws IH]; intros H; [reflexivity|].
  cbn [lstrip]. rewrite (H c (or_introl eq_refl)).
  apply IH. intros x Hx. apply H. right. exact Hx.
Qed.

Lemma rstrip_spaces (ws : str) :
  (forall x, In x ws -> isspace x = true) -> rstrip ws = [].
Proof.
  intros H. unfold rstrip. rewrite lstrip_spaces; [reflexivity|].
  intros x Hx. apply H. apply in_rev. exact Hx.
Qed.





(** ** The prompt behind the last line *)

Lemma lstrip_is_suffix (s : str) : exists p, s = p ++ lstrip s.
Proof.
  induction s as [|c s [p IH]]; [exists []; reflexivity|].
  cbn [lstrip]. destruct (isspace c).
  - exists (c :: p). cbn [app]. now rewrite <- IH.
  - exists []. reflexivity.
Qed.

Lemma last_split_cons_suffix (sep c : char) (t : str) :
  exists p, last (split sep (c :: t)) [] = p ++ last (split sep t) [].
Proof.
  pose proof (split_not_nil sep t) as Hne. cbn [split].
  destruct (N.eqb c sep).
  - exists []. destruct (split sep t); [contradiction | reflexivity].
  - destruct (split sep t) as [|l ls]; [contradiction|].
    destruct ls as [|m ms]; [exists [c] | exists []]; reflexivity.
Qed.

Lemma last_split_lstrip_suffix (sep : char) (t : str) :
  exists p, last (split sep t) [] = p ++ last (split sep (lstrip t)) [].
Proof.
  induction t as [|c t [p IH]]; [exists []; reflexivity|].
  cbn [lstrip]. destruct (isspace c); [|exists []; reflexivity].
  destruct (last_split_cons_suffix sep c t) as [q Hq].
  exists (q ++ p). rewrite Hq, IH. apply app_assoc.
Qed.

(** The line that is checked when the capture ends in [w] and one
    whitespace character, where [w] begins and ends with a visible
    character and holds no newline: a tail of the last line of what
    stands before [w], and then [w]. *)
Lemma last_line_before_prompt (t w w1 w2 : str) (p c space : char) :
  w = p :: w1 -> w = w2 ++ [c] ->
  isspace p = false -> isspace c = false -> isspace space = true ->
  ~ In NL w ->
  exists front before,
    last_line (t ++ w ++ [space]) = front ++ w
    /\ last (split NL t) [] = before ++ front.
Proof.
  intros Hp Hc Hpv Hcv Hsp Hnl.
  assert (Hstrip : forall a, strip (a ++ w) = lstrip a ++ w).
  { intros a. unfold strip. rewrite Hc at 1. rewrite app_assoc.
    rewrite rstrip_keeps by exact Hcv. rewrite <- app_assoc, <- Hc.
    rewrite Hp. apply lstrip_app. exact Hpv. }
  unfold last_line.
  assert (Hall : strip (t ++ w ++ [space]) = lstrip t ++ w).
  { unfold strip at 1. rewrite app_assoc, rstrip_drops by exact Hsp.
    apply Hstrip. }
  rewrite Hall.
  assert (Hne : is_empty (lstrip t ++ w) = false).
  { rewrite Hp. destruct (lstrip t); reflexivity. }
  rewrite Hne. cbn [negb].
  rewrite split_app_last by exact Hnl. rewrite last_last, Hstrip.
  destruct (last_split_lstrip_suffix NL t) as [q Hq].
  destruct (lstrip_is_suffix (last (split NL (lstrip t)) [])) as [q' Hq'].
  exists (lstrip (last (split NL (lstrip t)) [])), (q ++ q').
  split; [reflexivity|].
  rewrite Hq, <- app_assoc. f_equal. exact Hq'.
Qed.

Lemma pry_prompt_completes (t : str) :
  escapes_complete (last (split NL t) []) = true ->
  ends_with_prompt (clean_last_line (t ++ py "pry(main)> ")) = true.
Proof.
  intros Hcomplete.
  destruct (last_line_before_prompt t (py "pry(main)>") (py "ry(main)>")
              (py "pry(main)") 112%N 62%N 32%N)
    as (front & before & Hl & Hfront); try reflexivity.
  { vm_compute. intros H.
    repeat (destruct H as [H|H]; [discriminate H|]). exact H. }
  change (last_line (t ++ py "pry(main)> ") = front ++ py "pry(main)>")
    in Hl.
  rewrite Hfront in Hcomplete. apply escapes_complete_suffix in Hcomplete.
  unfold clean_last_line. rewrite Hl.
  rewrite (sanitize_app_complete front _ Hcomplete).
  rewrite ends_with_prompt_unfold.
  assert (E : endswith (strip_ansi_escape_sequences front
                          ++ strip_ansi_escape_sequences (py "pry(main)>"))
                       (py "pry(main)>") = true)
    by (apply endswith_iff;
        exists (strip_ansi_escape_sequences front); reflexivity).
  rewrite E. reflexivity.
Qed.

Lemma endswith_last_char (line a b : str) (x y : char) :
  endswith line (a ++ [x]) = true ->
  endswith line (b ++ [y]) = true ->
  x = y.
Proof.
  unfold endswith. rewrite !rev_app_distr. cbn [rev app].
  destruct (rev line) as [|c r]; [discriminate|].
  cbn [startswith]. rewrite !andb_true_iff, !N.eqb_eq.
  intros [<- _] [<- _]. reflexivity.
Qed.

Lemma endswith_other_char (line a b : str) (x y : char) :
  x <> y ->
  endswith line (a ++ [x]) = true ->
  endswith line (b ++ [y]) = false.
Proof.
  intros Hxy Hx. destruct (endswith line (b ++ [y])) eqn:Hy; [|reflexivity].
  exfalso. exact (Hxy (endswith_last_char _ _ _ _ _ Hx Hy)).
Qed.

(** Which pattern the loop finds: the one for the interactive tool and
    the bracketed ones before the single characters. *)
Lemma matching_pattern_specific (line : str) :
  (endswith line (py "pry(main)>") = true ->
   matching_pattern line = Some (py "pry(main)>"))
  /\ (endswith line (py "]$") = true ->
      matching_pattern line = Some (py "]$"))
  /\ (endswith line (py "]#") = true ->
      matching_pattern line = Some (py "]#")).
Proof.
  unfold matching_pattern, prompt_patterns. cbn [find].
  split; [|split]; intros H.
  - rewrite H. reflexivity.
  - assert (Hn : endswith line (py "pry(main)>") = false)
      by exact (endswith_other_char line (py "]") (py "pry(main)") 36%N 62%N
                  ltac:(discriminate) H).
    rewrite Hn, H. reflexivity.
  - assert (Hn : endswith line (py "pry(main)>") = false)
      by exact (endswith_other_char line (py "]") (py "pry(main)") 35%N 62%N
                  ltac:(discriminate) H).
    assert (Hd : endswith line (py "]$") = false)
      by exact (endswith_other_char line (py "]") (py "]") 35%N 36%N
                  ltac:(discriminate) H).
    rewrite Hn, Hd, H. reflexivity.
Qed.

(** The two bracketed patterns can change places: no line ends with
    both. *)
Lemma bracketed_order_immaterial (line : str) :
  find (fun pattern => endswith line pattern)
       [py "pry(main)>"; py "]#"; py "]$"; py "#"; py "$"]
  = matching_pattern line.
Proof.
  unfold matching_pattern, prompt_patterns. cbn [find].
  destruct (endswith line (py "pry(main)>")); [reflexivity|].
  destruct (endswith line (py "]#")) eqn:Hh.
  - assert (Hd : endswith line (py "]$") = false)
      by exact (endswith_other_char line (py "]") (py "]") 35%N 36%N
                  ltac:(discriminate) Hh).
    rewrite Hd. reflexivity.
  - reflexivity.
Qed.

Lemma ends_with_prompt_found (line : str) :
  ends_with_prompt line = true
  <-> exists pattern,
      matching_pattern line = Some pattern
      /\ In pattern prompt_patterns
      /\ endswith line pattern = true.
Proof.
  unfold ends_with_prompt, matching_pattern. split.
  - intros H. apply existsb_exists in H. destruct H as (p0 & Hin & Hp0).
    destruct (find (fun pattern => endswith line pattern) prompt_patterns)
      as [p|] eqn:Hf.
    + exists p. split; [reflexivity|]. exact (find_some _ _ Hf).
    + pose proof (find_none _ _ Hf p0 Hin) as Hn. cbv beta in Hn. congruence.
  - intros (p & _ & Hin & Hp). apply existsb_exists. exists p. split; assumption.
Qed.

(** C5, as the code has it.  The check succeeds exactly when the loop
    over the patterns finds one that ends the line.  The loop stops at
    the first such pattern: at ["pry(main)>"], ["]$"] or ["]#"] for a
    line that ends with one of them, before the single characters [#]
    and [$] that such a line ends with too; the two bracketed patterns,
    which the code lists as ["]$"] and then ["]#"], can change places
    without any effect.  An iteration that performs the check returns
    [(trimmed, False, False)] exactly when the sanitized, stripped last
    line of the stripped trimmed capture ends with a pattern.  A
    capture that ends in ["pry(main)> "] passes the check when every
    escape introducer on its last line before the prompt begins a
    complete escape sequence there, and a line that ends in [>]
    without ending in ["pry(main)>"] passes for no pattern. *)
Theorem prompt_check_priority :
  (forall line,
      ends_with_prompt line = true
      <-> exists pattern,
          matching_pattern line = Some pattern
          /\ In pattern prompt_patterns
          /\ endswith line pattern = true)
  /\ (forall line,
         (endswith line (py "pry(main)>") = true ->
          matching_pattern line = Some (py "pry(main)>"))
         /\ (endswith line (py "]$") = true ->
             matching_pattern line = Some (py "]$"))
         /\ (endswith line (py "]#") = true ->
             matching_pattern line = Some (py "]#")))
  /\ (forall line,
         find (fun pattern => endswith line pattern)
              [py "pry(main)>"; py "]#"; py "]$"; py "#"; py "$"]
         = matching_pattern line)
  /\ (forall command_sent max_wait_sec start_time st t,
         timed_out_at max_wait_sec start_time t = false ->
         tick_session_exists t = true ->
         check_prompts
           (observe command_sent st (tick_capture t))
           (_trim_output_to_command (tick_capture t) command_sent) = true ->
         loop_body command_sent max_wait_sec start_time st t
         = if ends_with_prompt
                (strip_ansi_escape_sequences
                   (last_line
                      (_trim_output_to_command (tick_capture t) command_sent)))
           then Return (_trim_output_to_command (tick_capture t) command_sent,
                        false, false)
           else Sleep (observe command_sent st (tick_capture t)))
  /\ (forall before_prompt,
         escapes_complete (last (split NL before_prompt) []) = true ->
         ends_with_prompt
           (clean_last_line (before_prompt ++ py "pry(main)> ")) = true)
  /\ (forall line,
         endswith line (py ">") = true ->
         endswith line (py "pry(main)>") = false ->
         ends_with_prompt line = false).
Proof.
  split; [exact ends_with_prompt_found|].
  split; [exact matching_pattern_specific|].
  split; [exact bracketed_order_immaterial|].
  split; [|split].
  - intros command_sent max_wait_sec start_time st t Hto Hex Hcheck.
    unfold loop_body. rewrite Hto, Hex, Hcheck. reflexivity.
  - exact pry_prompt_completes.
  - intros line Hgt Hpry. rewrite bare_gt_is_no_prompt by exact Hgt.
    exact Hpry.
Qed.

Lemma prompt_check_priority_witness :
  matching_pattern (py "[user@host dir]$") = Some (py "]$")
  /\ ends_with_prompt
       (clean_last_line
          ((py "irb" ++ [NL] ++ [ESC] ++ py "[1;32m") ++ py "pry(main)> "))
     = true
  /\ ends_with_prompt (py "mysql>") = false.
Proof.
  destruct prompt_check_priority as (_ & Hspec & _ & _ & Hpry & Hgt).
  split; [|split].
  - apply (proj1 (proj2 (Hspec (py "[user@host dir]$")))). reflexivity.
  - apply (Hpry (py "irb" ++ [NL] ++ [ESC] ++ py "[1;32m")). reflexivity.
  - apply Hgt; reflexivity.
Defined.

(** ** More about the polling loop *)

Section PollMore.

Variable command_sent : option str.
Variable max_wait_sec : Z.
Variable start_time : Q.

Abbreviation step := (loop_body command_sent max_wait_sec start_time).
Abbreviation run := (poll_loop command_sent max_wait_sec start_time).
Abbreviation late := (timed_out_at max_wait_sec start_time).
Abbreviation trimmed o := (_trim_output_to_command o command_sent).

Lemma blank_line_is_no_prompt (t : str) :
  (forall x, In x t -> isspace x = true) ->
  ends_with_prompt (clean_last_line t) = false.
Proof.
  intros H. unfold clean_last_line, last_line, strip.
  rewrite (rstrip_spaces t H). reflexivity.
Qed.

(** X8: a capture that is blank after trimming never completes the
    poll: at a tick that has not timed out and whose session exists,
    the loop goes on to the next iteration. *)
Theorem blank_capture_never_completes (st : poll_state) (t : tick) :
  late t = false ->
  tick_session_exists t = true ->
  (forall x, In x (trimmed (tick_capture t)) -> isspace x = true) ->
  step st t = Sleep (observe command_sent st (tick_capture t)).
Proof.
  intros Hl He Hblank. unfold loop_body. rewrite Hl, He. cbn [negb].
  rewrite (blank_line_is_no_prompt _ Hblank), andb_false_r. reflexivity.
Qed.

(** X9: the poll returns no later than the first tick after the
    deadline, whatever the panes show: with such a tick [t] among the
    observed ones the call returns, and the ticks after [t] have no
    part in the result. *)
Theorem poll_returns_by_deadline
        (st : poll_state) (before after : list tick) (t : tick) :
  (inject_Z max_wait_sec < tick_time t - start_time)%Q ->
  exists r,
    run st (before ++ [t]) = Return r
    /\ run st (before ++ t :: after) = Return r.
Proof.
  intros Hlate. apply timed_out_iff in Hlate.
  revert st. induction before as [|b before IH]; intros st.
  - exists (trimmed (tick_capture t), true, false).
    simpl. unfold loop_body. rewrite Hlate. split; reflexivity.
  - cbn [app poll_loop]. destruct (step st b) as [r|st'].
    + exists r. split; reflexivity.
    + apply IH.
Qed.

Lemma last_nonempty_default {A : Type} (x : A) (l : list A) (d d' : A) :
  last (x :: l) d = last (x :: l) d'.
Proof.
  rename d' into d''. revert x. induction l as [|y l IH]; intros x; [reflexivity|].
  change (last (y :: l) d = last (y :: l) d''). apply IH.
Qed.

Lemma observe_last_output (st : poll_state) (current_output : str) :
  last_output (observe command_sent st current_output) = current_output.
Proof.
  unfold observe; cbn [last_output].
  destruct (str_eqb current_output (last_output st)) eqn:E; cbn [negb];
    [|reflexivity].
  apply str_eqb_eq in E. symmetry. exact E.
Qed.

(** X10: as long as the loop goes on polling, every tick so far was
    within the deadline and had a live session, [last_output] is the
    latest capture and [poll_count] has counted the iterations. *)
Theorem while_polling (st st' : poll_state) (ticks : list tick) :
  run st ticks = Sleep st' ->
  (forall t, In t ticks -> late t = false /\ tick_session_exists t = true)
  /\ last_output st' = last (map tick_capture ticks) (last_output st)
  /\ poll_count st' = poll_count st + length ticks.
Proof.
  revert st. induction ticks as [|t ticks IH]; intros st; simpl.
  - intros [= <-]. split; [intros t' [] | split; [reflexivity | lia]].
  - destruct (step st t) as [r|st1] eqn:E; [discriminate|].
    intros H. destruct (IH _ H) as (Hall & Hlast & Hcount).
    pose proof (loop_body_sleep _ _ _ _ _ _ E) as Hst1.
    assert (Hlive : late t = false /\ tick_session_exists t = true).
    { unfold loop_body in E. destruct (late t); [discriminate|].
      destruct (tick_session_exists t); [split; reflexivity | discriminate]. }
    split; [|split].
    + intros t' [<- | Ht']; [exact Hlive | apply Hall, Ht'].
    + rewrite Hlast, Hst1, observe_last_output.
      destruct ticks as [|t0 ticks]; [reflexivity|].
      cbn [map]. apply last_nonempty_default.
    + rewrite Hcount, Hst1. cbn [observe poll_count]. lia.
Qed.

Lemma poll_loop_latches (st st' : poll_state) (ticks : list tick) :
  run st ticks = Sleep st' ->
  (output_changed st = true -> output_changed st' = true)
  /\ (command_seen st = true -> command_seen st' = true).
Proof.
  revert st. induction ticks as [|t ticks IH]; intros st; simpl.
  - intros [= <-]. auto.
  - destruct (step st t) as [r|st1] eqn:E; [discriminate|].
    intros H. apply loop_body_sleep in E. subst st1.
    destruct (IH _ H) as [Ho Hc].
    destruct (observe_latches command_sent st (tick_capture t)) as [Ho1 Hc1].
    split; auto.
Qed.

(** X11: without [pre_command_output] (a new session) the gate of the
    prompt check is open from the first iteration on: at a tick within
    the deadline whose session exists the call returns completed
    exactly when the trimmed capture is not empty and its cleaned last
    line ends with a prompt pattern. *)
Theorem new_session_checks_every_capture
        (first_capture : str) (before : list tick)
        (st : poll_state) (t : tick) :
  run (initial_state command_sent None first_capture) before = Sleep st ->
  late t = false ->
  tick_session_exists t = true ->
  step st t
  = if negb (is_empty (trimmed (tick_capture t)))
       && ends_with_prompt (clean_last_line (trimmed (tick_capture t)))
    then Return (trimmed (tick_capture t), false, false)
    else Sleep (observe command_sent st (tick_capture t)).
Proof.
  intros Hrun Hl He.
  destruct (poll_loop_latches _ _ _ Hrun) as [Ho _].
  specialize (Ho eq_refl).
  destruct (observe_latches command_sent st (tick_capture t)) as [Ho' _].
  specialize (Ho' Ho).
  unfold loop_body, check_prompts. rewrite Hl, He, Ho'. reflexivity.
Qed.

(** X12: the stale-prompt gate is open at once when the text that was
    sent already shows in [pre_command_output]: a first capture equal
    to that baseline whose cleaned last line ends with a prompt
    completes the poll although nothing has changed. *)
Theorem visible_command_opens_gate
        (pre first_capture : str) (t : tick) (after : list tick) :
  command_in command_sent pre = true ->
  tick_capture t = pre ->
  late t = false ->
  tick_session_exists t = true ->
  ends_with_prompt (clean_last_line (trimmed pre)) = true ->
  wait_for_output_completion command_sent max_wait_sec (Some pre)
                             start_time first_capture (t :: after)
  = Return (trimmed pre, false, false).
Proof.
  intros Hvis Hcap Hl He Hprompt.
  unfold wait_for_output_completion. cbn [poll_loop].
  unfold loop_body. rewrite Hl, He, Hcap. cbn [negb].
  assert (Hne : is_empty (trimmed pre) = false).
  { destruct (trimmed pre); [discriminate Hprompt | reflexivity]. }
  unfold check_prompts, observe, initial_state.
  cbn [output_changed command_seen last_output].
  rewrite Hvis, Hne, Hprompt. cbn [negb andb orb].
  rewrite orb_true_r. reflexivity.
Qed.

End PollMore.

Lemma blank_capture_never_completes_witness :
  let st := initial_state (Some (py "echo hi")) None [] in
  loop_body (Some (py "echo hi")) 20 0%Q st (sample_tick 1 true [NL; NL])
  = Sleep (observe (Some (py "echo hi")) st [NL; NL]).
Proof.
  intros st.
  apply (blank_capture_never_completes
           (Some (py "echo hi")) 20 0%Q st (sample_tick 1 true [NL; NL]));
    try reflexivity.
  intros x [<- | [<- | []]]; reflexivity.
Defined.

Lemma poll_returns_by_deadline_witness :
  exists r,
    poll_loop (Some (py "echo hi")) 20 0%Q
              (initial_state (Some (py "echo hi")) None [])
              ([sample_tick 1 true pane_busy] ++ [sample_tick 21 true pane_busy])
    = Return r
    /\ poll_loop (Some (py "echo hi")) 20 0%Q
                 (initial_state (Some (py "echo hi")) None [])
                 ([sample_tick 1 true pane_busy]
                    ++ sample_tick 21 true pane_busy
                    :: [sample_tick 22 true pane_done])
       = Return r.
Proof.
  apply (poll_returns_by_deadline (Some (py "echo hi")) 20 0%Q).
  reflexivity.
Defined.

Lemma while_polling_witness :
  let cmd := Some (py "echo hi") in
  let st := initial_state cmd (Some pane_before) pane_before in
  let ticks := [sample_tick 1 true pane_before; sample_tick 2 true pane_busy] in
  let st' := observe cmd (observe cmd st pane_before) pane_busy in
  (forall t, In t ticks ->
             timed_out_at 20 0%Q t = false /\ tick_session_exists t = true)
  /\ last_output st' = last (map tick_capture ticks) (last_output st)
  /\ poll_count st' = poll_count st + length ticks.
Proof.
  intros cmd st ticks st'.
  apply (while_polling cmd 20 0%Q st st' ticks). reflexivity.
Defined.

Lemma new_session_checks_every_capture_witness :
  let cmd := Some (py "echo hi") in
  let st := observe cmd (initial_state cmd None pane_busy) pane_busy in
  loop_body cmd 20 0%Q st (sample_tick 2 true pane_done)
  = Return (pane_done, false, false).
Proof.
  intros cmd st.
  refine (eq_trans
            (new_session_checks_every_capture
               cmd 20 0%Q pane_busy [sample_tick 1 true pane_busy] st
               (sample_tick 2 true pane_done) _ _ _) _);
    reflexivity.
Defined.

Lemma visible_command_opens_gate_witness :
  wait_for_output_completion (Some (py "echo hi")) 20 (Some pane_done)
                             0%Q [] [sample_tick 1 true pane_done]
  = Return (pane_done, false, false).
Proof.
  apply (visible_command_opens_gate
           (Some (py "echo hi")) 20 0%Q pane_done []
           (sample_tick 1 true pane_done) []); reflexivity.
Defined.

(* ================================================================== *)
(** * The commands *)

Local Open Scope Z_scope.

Lemma poll_timed_out_tick
      (command_sent : option str) (max_wait_sec : Z) (start_time : Q)
      (st : poll_state) (ticks : list tick) (out : str) (ex : bool) :
  poll_loop command_sent max_wait_sec start_time st ticks
  = Return (out, true, ex) ->
  ex = false
  /\ exists t, In t ticks
               /\ timed_out_at max_wait_sec start_time t = true
               /\ out = _trim_output_to_command (tick_capture t) command_sent.
Proof.
  intros H. apply poll_loop_return in H.
  destruct H as (before & st' & t & after & -> & _ & Hb).
  apply loop_body_return in Hb. destruct Hb as (-> & Hto & -> & _).
  rewrite <- Hto. split; [reflexivity|].
  exists t. split; [|split; [symmetry; exact Hto | reflexivity]].
  apply in_or_app. right. left. reflexivity.
Qed.

Lemma poll_completed_prompt
      (command_sent : option str) (max_wait_sec : Z) (start_time : Q)
      (st : poll_state) (ticks : list tick) (out : str) :
  poll_loop command_sent max_wait_sec start_time st ticks
  = Return (out, false, false) ->
  out <> [] /\ ends_with_prompt (clean_last_line out) = true.
Proof.
  intros H. apply poll_loop_return in H.
  destruct H as (before & st' & t & after & -> & _ & Hb).
  apply loop_body_return in Hb. destruct Hb as (-> & _ & _ & Hc).
  destruct (Hc eq_refl eq_refl) as [Hcheck Hprompt].
  split; [|exact Hprompt].
  unfold check_prompts in Hcheck. apply andb_true_iff in Hcheck.
  destruct Hcheck as [_ Hne]. intros E. rewrite E in Hne. discriminate.
Qed.

(** How [report] turns the result of the poll into an exit status. *)
Lemma report_exit (issued : list (list str)) (out_tty err_tty : bool)
      (exited_message : str) (exited_code : Z) (poll : iteration) (code : Z) :
  cli_status_of (report issued out_tty err_tty exited_message exited_code poll)
  = Exit code ->
  exists out to ex,
    poll = Return (out, to, ex)
    /\ cli_stdout (report issued out_tty err_tty exited_message exited_code poll)
       = written out_tty out
    /\ (ex = true /\ code = exited_code
        \/ ex = false /\ to = true /\ code = 2
        \/ ex = false /\ to = false /\ code = 0
           /\ cli_stderr
                (report issued out_tty err_tty exited_message exited_code poll)
              = []).
Proof.
  unfold report. destruct poll as [[[out to] ex]|st]; [|discriminate].
  destruct ex; [|destruct to]; cbn [cli_status_of cli_stdout cli_stderr];
    intros [= <-]; exists out; eexists; eexists;
    (split; [reflexivity | split; [reflexivity|]]); auto 10.
Qed.

Lemma click_keeps_other_chars (c : char) (s : str) :
  c <> ESC -> click_strip_ansi (c :: s) = c :: click_strip_ansi s.
Proof.
  intros Hc. unfold click_strip_ansi. apply re_sub_empty_no_match.
  unfold CLICK_ANSI_PATTERN. cbn [re_match cset_mem].
  apply N.eqb_neq in Hc. rewrite Hc. reflexivity.
Qed.

(** The error messages all begin with [Error], which no stripping
    removes. *)
Lemma error_message_written (isatty : bool) (rest : str) :
  written isatty (echo_err (py "Error" ++ rest)) <> [].
Proof.
  unfold written, echo_err. destruct isatty; [discriminate|].
  change ((py "Error" ++ rest) ++ [NL])
    with (69%N :: (py "rror" ++ rest) ++ [NL]).
  rewrite click_keeps_other_chars by discriminate. discriminate.
Qed.

Lemma exit_with_error_run (issued : list (list str)) (isatty : bool)
      (rest : str) (code : Z) :
  cli_status_of (exit_with_error issued isatty (py "Error" ++ rest)) = Exit code ->
  code = 1
  /\ cli_stdout (exit_with_error issued isatty (py "Error" ++ rest)) = []
  /\ cli_stderr (exit_with_error issued isatty (py "Error" ++ rest)) <> [].
Proof.
  cbn [exit_with_error cli_status_of cli_stdout cli_stderr].
  intros [= <-]. split; [reflexivity|]. split; [reflexivity|].
  apply error_message_written.
Qed.

(** X13: the exit status of the body of [new-tmux-session].  Status 1
    comes with a message on standard error and nothing on standard
    output.  Status 2 means that the poll returned at a tick at which
    more than 20 seconds had elapsed.  Status 0 means that the poll
    returned within the deadline, with the prompt back or with the
    session gone.  In the last two cases standard output is what
    [click.echo] writes for the text the poll returned: the text
    itself on a terminal, the text without the sequences click strips
    otherwise. *)
Theorem new_session_exit_status
        (session_name : str) (start_directory : option str)
        (command : str) (w : new_session_world) (code : Z) :
  cli_status_of (new_tmux_session session_name start_directory command w)
  = Exit code ->
  (code = 1
   /\ cli_stdout (new_tmux_session session_name start_directory command w) = []
   /\ cli_stderr (new_tmux_session session_name start_directory command w) <> [])
  \/ (code = 2
      /\ exists out t,
          wait_for_output_completion (Some command) 20 None (ns_start_time w)
                                     (ns_first_capture w) (ns_ticks w)
          = Return (out, true, false)
          /\ cli_stdout (new_tmux_session session_name start_directory command w)
             = written (ns_stdout_isatty w) out
          /\ In t (ns_ticks w)
          /\ timed_out_at 20 (ns_start_time w) t = true)
  \/ (code = 0
      /\ exists out ex,
          wait_for_output_completion (Some command) 20 None (ns_start_time w)
                                     (ns_first_capture w) (ns_ticks w)
          = Return (out, false, ex)
          /\ cli_stdout (new_tmux_session session_name start_directory command w)
             = written (ns_stdout_isatty w) out).
Proof.
  unfold new_tmux_session.
  destruct (session_exists (ns_has_session w)) as [[|]|e];
    [intros H; left;
     exact (exit_with_error_run _ _ (py ": Session '" ++ session_name
                                        ++ py "' already exists") _ H)
    | | discriminate].
  destruct (ns_new_session w) as [rc err|[| | |]];
    try discriminate;
    [|intros H; left;
      exact (exit_with_error_run
               _ _ (py ": tmux new-session command timed out") _ H)].
  destruct (negb (rc =? 0)%Z);
    [intros H; left;
     exact (exit_with_error_run _ _ (py " creating session: " ++ err) _ H)|].
  destruct (session_exists (ns_has_session_after w)) as [[|]|e];
    [| intros H; left;
       exact (exit_with_error_run _ _ (py ": Session '" ++ session_name
                                          ++ py "' exited immediately") _ H)
     | discriminate].
  intros H. apply report_exit in H.
  destruct H as (out & to & ex & Hpoll & Hout & Hcase).
  destruct Hcase as [[-> ->] | [(-> & -> & ->) | (-> & -> & -> & _)]].
  - right; right. split; [reflexivity|].
    destruct to.
    + apply poll_timed_out_tick in Hpoll. destruct Hpoll; discriminate.
    + exists out, true. split; assumption.
  - right; left. split; [reflexivity|].
    destruct (poll_timed_out_tick _ _ _ _ _ _ _ Hpoll) as [_ (t & Hin & Ht & _)].
    exists out, t. repeat split; assumption.
  - right; right. split; [reflexivity|].
    exists out, false. split; assumption.
Qed.

(** X14: the exit status of the body of [send-keys].  Status 0 means
    that the poll returned with the prompt back: with a non-empty text
    whose cleaned last line ends with a prompt pattern, and with
    nothing on standard error.  Status 2 means that the poll returned
    at a tick past the 20 seconds.  Status 1 means either that the
    command stopped before polling, with nothing on standard output,
    or that the session was gone during the poll.  Whenever the poll
    returned, standard output is what [click.echo] writes for its
    text: the text itself on a terminal, the text without the
    sequences click strips otherwise. *)
Theorem send_keys_exit_status
        (target_session : str) (no_enter : bool) (keys : str)
        (w : send_keys_world) (code : Z) :
  cli_status_of (send_keys target_session no_enter keys w) = Exit code ->
  (code = 1
   /\ cli_stdout (send_keys target_session no_enter keys w) = []
   /\ cli_stderr (send_keys target_session no_enter keys w) <> [])
  \/ exists pre out,
      capture_tmux_output (sk_capture_pane w) target_session 100 = Value pre
      /\ cli_stdout (send_keys target_session no_enter keys w)
         = written (sk_stdout_isatty w) out
      /\ (code = 0
          /\ wait_for_output_completion (Some keys) 20 (Some pre)
                                        (sk_start_time w) [] (sk_ticks w)
             = Return (out, false, false)
          /\ out <> []
          /\ ends_with_prompt (clean_last_line out) = true
          /\ cli_stderr (send_keys target_session no_enter keys w) = []
          \/ code = 1
             /\ wait_for_output_completion (Some keys) 20 (Some pre)
                                           (sk_start_time w) [] (sk_ticks w)
                = Return (out, false, true)
          \/ code = 2
             /\ wait_for_output_completion (Some keys) 20 (Some pre)
                                           (sk_start_time w) [] (sk_ticks w)
                = Return (out, true, false)
             /\ exists t, In t (sk_ticks w)
                          /\ timed_out_at 20 (sk_start_time w) t = true).
Proof.
  unfold send_keys.
  destruct (session_exists (sk_has_session w)) as [[|]|e];
    [| intros H; left;
       exact (exit_with_error_run _ _ (py ": Session '" ++ target_session
                                          ++ py "' does not exist") _ H)
     | discriminate].
  destruct (capture_tmux_output (sk_capture_pane w) target_session 100)
    as [pre|e]; [|discriminate].
  destruct (sk_send_keys w) as [rc err|[| | |]];
    try discriminate;
    [|intros H; left;
      exact (exit_with_error_run
               _ _ (py ": tmux send-keys command timed out") _ H)].
  destruct (negb (rc =? 0)%Z);
    [intros H; left;
     exact (exit_with_error_run _ _ (py " sending keys: " ++ err) _ H)|].
  intros H. apply report_exit in H.
  destruct H as (out & to & ex & Hpoll & Hout & Hcase).
  right. exists pre, out. split; [reflexivity|]. split; [exact Hout|].
  destruct Hcase as [[-> ->] | [(-> & -> & ->) | (-> & -> & -> & Herr)]].
  - right; left. split; [reflexivity|].
    destruct to; [|exact Hpoll].
    apply poll_timed_out_tick in Hpoll. destruct Hpoll; discriminate.
  - right; right. split; [reflexivity|]. split; [exact Hpoll|].
    destruct (poll_timed_out_tick _ _ _ _ _ _ _ Hpoll) as [_ (t & Hin & Ht & _)].
    exists t. split; assumption.
  - left. split; [reflexivity|]. split; [exact Hpoll|].
    destruct (poll_completed_prompt _ _ _ _ _ _ Hpoll) as [Hne Hp].
    repeat split; assumption.
Qed.

Lemma new_session_exit_status_witness :
  let w := sample_new_session [sample_tick 21 true pane_busy] in
  let r := new_tmux_session (py "main") None (py "echo hi") w in
  (2 = 1 /\ cli_stdout r = [] /\ cli_stderr r <> [])
  \/ (2 = 2
      /\ exists out t,
          wait_for_output_completion (Some (py "echo hi")) 20 None
                                     (ns_start_time w) (ns_first_capture w)
                                     (ns_ticks w)
          = Return (out, true, false)
          /\ cli_stdout r = written (ns_stdout_isatty w) out
          /\ In t (ns_ticks w)
          /\ timed_out_at 20 (ns_start_time w) t = true)
  \/ (2 = 0
      /\ exists out ex,
          wait_for_output_completion (Some (py "echo hi")) 20 None
                                     (ns_start_time w) (ns_first_capture w)
                                     (ns_ticks w)
          = Return (out, false, ex)
          /\ cli_stdout r = written (ns_stdout_isatty w) out).
Proof.
  intros w r.
  apply (new_session_exit_status (py "main") None (py "echo hi") w 2).
  reflexivity.
Defined.

Lemma send_keys_exit_status_witness :
  let w := sample_send_keys [sample_tick 1 true pane_done] in
  let r := send_keys (py "main") false (py "echo hi") w in
  cli_status_of r = Exit 0
  /\ cli_stdout r = pane_done
  /\ ((0 = 1 /\ cli_stdout r = [] /\ cli_stderr r <> [])
      \/ exists pre out,
          capture_tmux_output (sk_capture_pane w) (py "main") 100 = Value pre
          /\ cli_stdout r = written (sk_stdout_isatty w) out
          /\ (0 = 0
              /\ wait_for_output_completion (Some (py "echo hi")) 20 (Some pre)
                                            (sk_start_time w) [] (sk_ticks w)
                 = Return (out, false, false)
              /\ out <> []
              /\ ends_with_prompt (clean_last_line out) = true
              /\ cli_stderr r = []
              \/ 0 = 1
                 /\ wait_for_output_completion (Some (py "echo hi")) 20
                                               (Some pre) (sk_start_time w) []
                                               (sk_ticks w)
                    = Return (out, false, true)
              \/ 0 = 2
                 /\ wait_for_output_completion (Some (py "echo hi")) 20
                                               (Some pre) (sk_start_time w) []
                                               (sk_ticks w)
                    = Return (out, true, false)
                 /\ exists t, In t (sk_ticks w)
                              /\ timed_out_at 20 (sk_start_time w) t = true)).
Proof.
  intros w r. split; [reflexivity|]. split; [reflexivity|].
  apply (send_keys_exit_status (py "main") false (py "echo hi") w 0).
  reflexivity.
Defined.

Lemma new_session_argv_length (session_name : str)
      (start_directory : option str) (command : str) :
  (6 <= length (new_session_argv session_name start_directory command))%nat.
Proof.
  unfold new_session_argv. destruct start_directory as [[|c d]|];
    simpl; lia.
Qed.

(** X15: [new-tmux-session] asks tmux to create the session at most
    once, and only after [has-session] has finished with a non-zero
    status, that is when no session of that name exists: before that
    nothing but the [has-session] probe is issued. *)
Theorem new_session_creates_only_when_absent
        (session_name : str) (start_directory : option str)
        (command : str) (w : new_session_world) :
  In (new_session_argv session_name start_directory command)
     (cli_issued (new_tmux_session session_name start_directory command w)) ->
  (exists returncode stdout,
      ns_has_session w = CompletedProcess returncode stdout
      /\ returncode <> 0)
  /\ count_occ (list_eq_dec (list_eq_dec N.eq_dec))
               (cli_issued
                  (new_tmux_session session_name start_directory command w))
               (new_session_argv session_name start_directory command)
     = 1%nat.
Proof.
  pose proof (new_session_argv_length session_name start_directory command)
    as Hlen.
  assert (Hne : has_session_argv session_name
                <> new_session_argv session_name start_directory command).
  { intros E. rewrite <- E in Hlen. simpl in Hlen. lia. }
  assert (Hprobe :
            ~ In (new_session_argv session_name start_directory command)
                 [has_session_argv session_name]).
  { intros [E | []]. contradiction. }
  assert (Hcount :
            count_occ (list_eq_dec (list_eq_dec N.eq_dec))
              [has_session_argv session_name;
               new_session_argv session_name start_directory command;
               has_session_argv session_name]
              (new_session_argv session_name start_directory command)
            = 1%nat
            /\ count_occ (list_eq_dec (list_eq_dec N.eq_dec))
                 [has_session_argv session_name;
                  new_session_argv session_name start_directory command]
                 (new_session_argv session_name start_directory command)
               = 1%nat).
  { cbn [count_occ].
    destruct (list_eq_dec (list_eq_dec N.eq_dec)
                (has_session_argv session_name)
                (new_session_argv session_name start_directory command));
      [contradiction|].
    destruct (list_eq_dec (list_eq_dec N.eq_dec)
                (new_session_argv session_name start_directory command)
                (new_session_argv session_name start_directory command));
      [split; reflexivity | contradiction]. }
  destruct Hcount as [Hc3 Hc2].
  unfold new_tmux_session, session_exists.
  destruct (ns_has_session w) as [rc out|e];
    [|cbn [uncaught cli_issued]; intros H; exfalso; exact (Hprobe H)].
  destruct (rc =? 0) eqn:Hrc;
    [cbn [exit_with_error cli_issued]; intros H; exfalso; exact (Hprobe H)|].
  apply Z.eqb_neq in Hrc. intros _.
  split; [exists rc, out; split; [reflexivity | exact Hrc]|].
  destruct (ns_new_session w) as [rc' err|[| | |]]; try exact Hc2.
  destruct (negb (rc' =? 0)); [exact Hc2|].
  destruct (ns_has_session_after w) as [rc2 out2|e]; [|exact Hc3].
  destruct (rc2 =? 0); [|exact Hc3].
  unfold report. destruct (wait_for_output_completion _ _ _ _ _ _)
    as [[[o to] ex]|st]; [|exact Hc3].
  destruct ex; [exact Hc3|]. destruct to; exact Hc3.
Qed.

Lemma new_session_creates_only_when_absent_witness :
  let w := sample_new_session [sample_tick 1 true pane_done] in
  (exists returncode stdout,
      ns_has_session w = CompletedProcess returncode stdout
      /\ returncode <> 0)
  /\ count_occ (list_eq_dec (list_eq_dec N.eq_dec))
               (cli_issued (new_tmux_session (py "main") None (py "echo hi") w))
               (new_session_argv (py "main") None (py "echo hi"))
     = 1%nat.
Proof.
  intros w.
  apply (new_session_creates_only_when_absent (py "main") None (py "echo hi") w).
  right. left. reflexivity.
Defined.

(** X16: [send-keys] sends the keys only to a session that
    [has-session] reported as existing and only after the capture of
    the pane before the keys has returned: whenever the [send-keys]
    invocation is issued, it is the third and last invocation before
    the poll, behind the probe and the capture. *)
Theorem send_keys_sends_after_baseline
        (target_session : str) (no_enter : bool) (keys : str)
        (w : send_keys_world) :
  In (send_keys_argv target_session no_enter keys)
     (cli_issued (send_keys target_session no_enter keys w)) ->
  cli_issued (send_keys target_session no_enter keys w)
  = [has_session_argv target_session; capture_pane_argv target_session;
     send_keys_argv target_session no_enter keys]
  /\ session_exists (sk_has_session w) = Value true
  /\ exists pre,
      capture_tmux_output (sk_capture_pane w) target_session 100 = Value pre.
Proof.
  assert (Hp : has_session_argv target_session
               <> send_keys_argv target_session no_enter keys)
    by (destruct no_enter; discriminate).
  assert (Hc : capture_pane_argv target_session
               <> send_keys_argv target_session no_enter keys)
    by (destruct no_enter; discriminate).
  unfold send_keys.
  destruct (session_exists (sk_has_session w)) as [[|]|e];
    try (cbn [uncaught exit_with_error cli_issued];
         intros [E | []]; contradiction).
  destruct (capture_tmux_output (sk_capture_pane w) target_session 100)
    as [pre|e];
    [|cbn [uncaught cli_issued]; intros [E | [E | []]]; contradiction].
  intros _. split; [|split; [reflexivity | exists pre; reflexivity]].
  destruct (sk_send_keys w) as [rc err|[| | |]]; try reflexivity.
  destruct (negb (rc =? 0)); [reflexivity|].
  unfold report. destruct (wait_for_output_completion _ _ _ _ _ _)
    as [[[o to] ex]|st]; [|reflexivity].
  destruct ex; [reflexivity|]. destruct to; reflexivity.
Qed.

Lemma send_keys_sends_after_baseline_witness :
  let w := sample_send_keys [sample_tick 1 true pane_done] in
  cli_issued (send_keys (py "main") false (py "echo hi") w)
  = [has_session_argv (py "main"); capture_pane_argv (py "main");
     send_keys_argv (py "main") false (py "echo hi")]
  /\ session_exists (sk_has_session w) = Value true
  /\ exists pre,
      capture_tmux_output (sk_capture_pane w) (py "main") 100 = Value pre.
Proof.
  intros w.
  apply (send_keys_sends_after_baseline (py "main") false (py "echo hi") w).
  do 2 right. left. reflexivity.
Defined.

Lemma quiet_wait_never_completes
      (command_sent : option str) (max_wait_sec : Z) (start_time : Q)
      (pre first_capture : str) (ticks : list tick) (out : str) :
  (forall t, In t ticks ->
             tick_capture t = pre
             /\ command_in command_sent (tick_capture t) = false) ->
  wait_for_output_completion command_sent max_wait_sec (Some pre)
                             start_time first_capture ticks
  <> Return (out, false, false).
Proof.
  intros Hq. unfold wait_for_output_completion.
  destruct ticks as [|t ticks]; [discriminate|].
  apply (quiet_loop_never_completes command_sent max_wait_sec start_time pre);
    try reflexivity; [exact Hq|].
  cbn [initial_state command_seen].
  destruct (Hq t (or_introl eq_refl)) as [<- Hin]. exact Hin.
Qed.

(** X17: [send-keys] never reports success for a pane that did not
    react: when every capture of the poll equals the capture taken
    before the keys were sent and that capture does not show the keys,
    the exit status is not 0. *)
Theorem send_keys_needs_reaction
        (target_session : str) (no_enter : bool) (keys pre : str)
        (w : send_keys_world) :
  capture_tmux_output (sk_capture_pane w) target_session 100 = Value pre ->
  (forall t, In t (sk_ticks w) ->
             tick_capture t = pre
             /\ command_in (Some keys) (tick_capture t) = false) ->
  cli_status_of (send_keys target_session no_enter keys w) <> Exit 0.
Proof.
  intros Hcap Hq. unfold send_keys. rewrite Hcap.
  destruct (session_exists (sk_has_session w)) as [[|]|e];
    try discriminate.
  destruct (sk_send_keys w) as [rc err|[| | |]]; try discriminate.
  destruct (negb (rc =? 0)); [discriminate|].
  intros H. apply report_exit in H.
  destruct H as (out & to & ex & Hpoll & _ & Hcase).
  destruct Hcase as [[_ [=]] | [(_ & _ & [=]) | (-> & -> & _)]].
  exact (quiet_wait_never_completes _ _ _ _ _ _ _ Hq Hpoll).
Qed.

Lemma send_keys_needs_reaction_witness :
  cli_status_of
    (send_keys (py "main") false (py "echo hi")
               (sample_send_keys [sample_tick 1 true pane_before;
                                  sample_tick 2 true pane_before]))
  <> Exit 0.
Proof.
  apply (send_keys_needs_reaction (py "main") false (py "echo hi") pane_before).
  - reflexivity.
  - intros t [<- | [<- | []]]; split; reflexivity.
Defined.

(** On a pipe [click.echo] writes less than the poll returned when the
    text holds sequences that click strips; on a terminal it writes the
    text. *)
Example echo_on_a_pipe :
  let out := [ESC] ++ py "[" ++ [ESC] ++ py "[mpry(main)> " in
  written false out = [ESC] ++ py "[pry(main)> "
  /\ written true out = out.
Proof. split; reflexivity. Qed.
